(** * psychopy/app/jobs.py: subprocess jobs and their pipe readers

    A shallow embedding of [PipeReader] and [Job].  A Python object is a
    record, a method is a function on the record (and on the store it
    reaches), a worker thread is a step function driven by the events
    that make it progress, and [wx.CallAfter] is a queue drained by the
    host event loop. *)

From Stdlib Require Import String List ZArith Lia Bool.
From stdpp Require Import base option list strings.
Import ListNotations.

Local Open Scope Z_scope.

(** ** Python strings *)

(** [sep.join(xs)] with the empty separator, as in
    ["".join(self._overflowBuffer)]. *)
Definition join (xs : list string) : string := String.concat "" xs.

(** ** class PipeReader(Thread) *)

Module PipeReader.

(** Where the worker thread stands in [run]. *)
Inductive Phase :=
| NotStarted   (* constructed, [Thread.start] not called yet *)
| Reading      (* inside [for pipeBytes in iter(self._fdpipe.readline, '')] *)
| Sleeping     (* inside [time.sleep(self._pollSecs)] *)
| Exited.      (* left the [while], pipe closed *)

Record t := mk {
  _queue : option string;          (* Queue(maxsize=1): the single slot *)
  _overflowBuffer : list string;
  _stopSignal : bool;              (* Event() *)
  phase : Phase;
  closed : bool                    (* [self._fdpipe.close()] was called *)
}.

Definition init : t :=
  {| _queue := None; _overflowBuffer := []; _stopSignal := false;
     phase := NotStarted; closed := false |}.

Definition set_queue (q : option string) (r : t) : t :=
  {| _queue := q; _overflowBuffer := _overflowBuffer r;
     _stopSignal := _stopSignal r; phase := phase r; closed := closed r |}.

Definition set_overflowBuffer (b : list string) (r : t) : t :=
  {| _queue := _queue r; _overflowBuffer := b;
     _stopSignal := _stopSignal r; phase := phase r; closed := closed r |}.

Definition set_phase (p : Phase) (r : t) : t :=
  {| _queue := _queue r; _overflowBuffer := _overflowBuffer r;
     _stopSignal := _stopSignal r; phase := p; closed := closed r |}.

(** [Queue.full()] for a queue of capacity one. *)
Definition full (r : t) : bool :=
  match _queue r with Some _ => true | None => false end.

Definition isAvailable (r : t) : bool := full r.

(** [read]: [get_nowait] takes the item out of the slot; [Empty] is
    caught and [''] returned. *)
Definition read (r : t) : string * t :=
  match _queue r with
  | Some s => (s, set_queue None r)
  | None => (""%string, r)
  end.

(** Body of the [for] loop in [run], for one chunk [pipeBytes]. *)
Definition enqueue (pipeBytes : string) (r : t) : t :=
  if negb (full r) then
    match _overflowBuffer r with
    | _ :: _ =>
        set_queue (Some (join (_overflowBuffer r) +:+ pipeBytes))
                  (set_overflowBuffer [] r)
    | [] => set_queue (Some pipeBytes) r
    end
  else set_overflowBuffer (_overflowBuffer r ++ [pipeBytes]) r.

Definition stop (r : t) : t :=
  {| _queue := _queue r; _overflowBuffer := _overflowBuffer r;
     _stopSignal := true; phase := phase r; closed := closed r |}.

(** [Thread.start()]: the worker enters [run] and its first [readline]. *)
Definition start (r : t) : t :=
  match phase r with NotStarted => set_phase Reading r | _ => r end.

(** What makes the worker progress: a [readline] call returning (the
    empty string is end of file, which ends the [for]), or [time.sleep]
    returning.  A [readline] on an open pipe with nothing to read does
    not return: no event. *)
Inductive WorkerEvent :=
| Readline (s : string)
| Wake.

(** One step of [run].  [None]: the event cannot happen in this phase. *)
Definition run_step (e : WorkerEvent) (r : t) : option t :=
  match phase r, e with
  | Reading, Readline s =>
      if decide (s = ""%string) then Some (set_phase Sleeping r)
      else Some (enqueue s r)
  | Sleeping, Wake =>
      if _stopSignal r then
        Some {| _queue := _queue r; _overflowBuffer := _overflowBuffer r;
                _stopSignal := true; phase := Exited; closed := true |}
      else Some (set_phase Reading r)
  | _, _ => None
  end.

(** The worker together with its consumer (the host thread).  Queue
    operations are atomic, and only the worker touches the overflow
    buffer, so the interleavings of the two threads are the sequences of
    these events. *)
Inductive Event :=
| Worker (e : WorkerEvent)
| CallRead
| CallStop.

(** A reader and the values its [read] calls returned so far. *)
Definition Sys : Type := t * list string.

Definition sys_step (e : Event) (s : Sys) : option Sys :=
  match e with
  | Worker w => r ← run_step w (fst s); Some (r, snd s)
  | CallRead => let '(v, r) := read (fst s) in Some (r, snd s ++ [v])
  | CallStop => Some (stop (fst s), snd s)
  end.

Fixpoint sys_run (es : list Event) (s : Sys) : option Sys :=
  match es with
  | [] => Some s
  | e :: es' => s' ← sys_step e s; sys_run es' s'
  end.

(** The chunks the pipe produced along a trace, in arrival order. *)
Fixpoint produced (es : list Event) : list string :=
  match es with
  | [] => []
  | Worker (Readline s) :: es' =>
      if decide (s = ""%string) then produced es' else s :: produced es'
  | _ :: es' => produced es'
  end.

(** What the reader still holds: the slot, then the overflow buffer. *)
Definition held (r : t) : string :=
  match _queue r with Some s => s | None => ""%string end
  +:+ join (_overflowBuffer r).

(** [n] successive [read] calls: the values returned, the reader left. *)
Fixpoint reads (n : nat) (r : t) : list string * t :=
  match n with
  | O => ([], r)
  | S k =>
      let (v, r1) := read r in
      let (vs, r2) := reads k r1 in
      (v :: vs, r2)
  end.

(** The worker alone, along the events that reach it. *)
Fixpoint worker_run (es : list WorkerEvent) (r : t) : option t :=
  match es with
  | [] => Some r
  | e :: es' => r' ← run_step e r; worker_run es' r'
  end.

Definition is_eof (e : WorkerEvent) : bool :=
  match e with
  | Readline s => bool_decide (s = ""%string)
  | Wake => false
  end.

(** The pipe stays open along [es]: no [readline] returns end of file. *)
Definition pipe_open (es : list WorkerEvent) : bool :=
  forallb (fun e => negb (is_eof e)) es.

Definition exited (r : t) : Prop := phase r = Exited /\ closed r = true.

(** The reading of [stop] under which its latency depends on the polling
    interval alone: a worker whose stop flag is set leaves [run] once
    enough sleeps have elapsed, with nothing coming from the pipe. *)
Definition stop_needs_only_time : Prop :=
  forall r, phase r = Reading -> _stopSignal r = true ->
    exists n r', worker_run (repeat Wake n) r = Some r' /\ exited r'.

Definition newline : string := String (Ascii.ascii_of_nat 10) "".

(** Two lines written by the child before the host reads. *)
Definition line1 : string := "line1" +:+ newline.
Definition line2 : string := "line2" +:+ newline.
Definition two_lines : list Event := [Worker (Readline line1); Worker (Readline line2)].

(** A burst of chunks handed to the loop body one after the other. *)
Definition enqueue_all (cs : list string) (r : t) : t :=
  fold_left (fun acc c => enqueue c acc) cs r.

(** The worker is inside [run]. *)
Definition in_run (r : t) : Prop := phase r = Reading \/ phase r = Sleeping.

(** *** [run] when [readline] raises

    [run] has no handler.  An exception raised by [readline] (the pipe
    is read as text, so output that does not decode raises
    [UnicodeDecodeError]) ends the thread where it stands, inside the
    [for]: the stop test and [self._fdpipe.close()] are not reached, the
    flag and what is staged stay as they are.  The host can still call
    [read] and [stop] on the object. *)
Inductive RunEvent :=
| Normal (e : Event)
| ReadlineRaises.

(** The reader with its consumer, and whether the worker thread was
    ended by an exception. *)
Definition Thread : Type := Sys * bool.

Definition thread_step (e : RunEvent) (x : Thread) : option Thread :=
  match e with
  | Normal (Worker w) =>
      if snd x then None else s ← sys_step (Worker w) (fst x); Some (s, false)
  | Normal c => s ← sys_step c (fst x); Some (s, snd x)
  | ReadlineRaises =>
      if snd x then None
      else match phase (fst (fst x)) with
           | Reading => Some (fst x, true)
           | _ => None
           end
  end.

Fixpoint thread_run (es : list RunEvent) (x : Thread) : option Thread :=
  match es with
  | [] => Some x
  | e :: es' => x' ← thread_step e x; thread_run es' x'
  end.

(** What every event keeps: the pipe is closed exactly when the worker
    left [run] through its stop test, and then the flag is set. *)
Definition closes_on_exit (r : t) : Prop :=
  (closed r = true <-> phase r = Exited) /\
  (closed r = true -> _stopSignal r = true) /\
  phase r <> NotStarted.

(** A dead worker died in its read loop and left the pipe open. *)
Definition thread_ok (r : t) (d : bool) : Prop :=
  closes_on_exit r /\ (d = true -> phase r = Reading /\ closed r = false).

(** No [stop] call along a trace. *)
Definition no_stop (es : list RunEvent) : bool :=
  forallb (fun e => match e with Normal CallStop => false | _ => true end) es.

(** Some [readline] call raised along a trace. *)
Definition raised (es : list RunEvent) : bool :=
  existsb (fun e => match e with ReadlineRaises => true | _ => false end) es.

End PipeReader.

(** ** The objects a Job works with *)

(** Python values that the modelled methods take or return. *)
Inductive PyVal :=
| VNone
| VBool (b : bool)
| VInt (z : Z)
| VStr (s : string).

Definition of_optZ (o : option Z) : PyVal :=
  match o with Some z => VInt z | None => VNone end.

(** Exceptions that leave a method. *)
Inductive Exn :=
| AttributeError (msg : string)
| TypeError
| ValueError
| OverflowError
| OSError                       (* [Popen] could not create the process *)
| DanglingRef.                  (* a reference to no object: not a Python state *)

Inductive Outcome (A : Type) :=
| Return (a : A)
| Raise (e : Exn).
Arguments Return {A} a.
Arguments Raise {A} e.

(** Objects live in a store and are named by their index in it. *)
Abbreviation ref := nat.

(** [subprocess.Popen], as far as [Job] uses it. *)
Module Popen.

Record t := mk {
  pid : Z;
  returncode : option Z;    (* the attribute, set once [poll] saw the exit *)
  status : option Z;        (* exit status the OS holds once the child exited *)
  signalled : bool          (* [terminate] sent its signal *)
}.

Definition spawn (newpid : Z) : t :=
  {| pid := newpid; returncode := None; status := None; signalled := false |}.

(** [poll()]: never blocks; records and returns the exit status if the
    child has exited, [None] otherwise. *)
Definition poll (p : t) : option Z * t :=
  match returncode p with
  | Some c => (Some c, p)
  | None =>
      (status p,
       {| pid := pid p; returncode := status p; status := status p;
          signalled := signalled p |})
  end.

(** [terminate()] is [send_signal(SIGTERM)]: it polls first, which
    records the exit status of a child that has already exited, and
    sends the signal only when no exit is recorded then; a signalled
    child ends later, its [returncode] attribute stays [None]. *)
Definition terminate (p : t) : t :=
  let p' := snd (poll p) in
  match returncode p' with
  | Some _ => p'
  | None =>
      {| pid := pid p'; returncode := None; status := status p';
         signalled := true |}
  end.

(** The child exits with [code] (an event of the environment). *)
Definition child_exit (code : Z) (p : t) : t :=
  match status p with
  | Some _ => p
  | None =>
      {| pid := pid p; returncode := returncode p; status := Some code;
         signalled := signalled p |}
  end.

End Popen.

(** A host function given as a callback, by name. *)
Definition Callback := nat.

(** What [wx.CallAfter] can be given here: a host callback or the bound
    method [self.onTerminate]. *)
Inductive Callable :=
| UserFn (f : Callback)
| BoundOnTerminate.

Record Call := mkCall { fn : Callable; args : list PyVal }.

(** Calls made on the objects of the store and on [wx], in the order made. *)
Inductive Op :=
| OpPopen (command : string) (cwd : option string) (p : ref)
| OpProcPoll (p : ref)
| OpProcTerminate (p : ref)
| OpReaderNew (r : ref)
| OpReaderStart (r : ref)
| OpReaderStop (r : ref)
| OpReaderIsAvailable (r : ref)
| OpReaderRead (r : ref)
| OpTimerStart (ms : Z)
| OpTimerStop
| OpCallAfter (c : Call).

Record World := mkWorld {
  processes : list Popen.t;
  readers : list PipeReader.t;
  callAfter : list Call;                     (* pending [wx.CallAfter] calls *)
  invoked : list (Callback * list PyVal);    (* host callbacks run, in order *)
  trace : list Op
}.

Definition emptyWorld : World :=
  {| processes := []; readers := []; callAfter := []; invoked := []; trace := [] |}.

(** ** class Job *)

Module Job.

Record t := mk {
  _command : string;
  _pid : option Z;
  _flags : Z;
  _process : option ref;
  _pollMillis : option Z;
  _pollTimer : option Z;          (* wx.Timer: [Some ms] while running *)
  _env : option (list (string * string));
  _inputCallback : option Callback;
  _errorCallback : option Callback;
  _terminateCallback : option Callback;
  _stdoutReader : option ref;
  _stderrReader : option ref
}.

Definition set_command (v : string) (j : t) : t :=
  mk v (_pid j) (_flags j) (_process j) (_pollMillis j) (_pollTimer j) (_env j)
     (_inputCallback j) (_errorCallback j) (_terminateCallback j)
     (_stdoutReader j) (_stderrReader j).

Definition set_pid (v : option Z) (j : t) : t :=
  mk (_command j) v (_flags j) (_process j) (_pollMillis j) (_pollTimer j) (_env j)
     (_inputCallback j) (_errorCallback j) (_terminateCallback j)
     (_stdoutReader j) (_stderrReader j).

Definition set_flags (v : Z) (j : t) : t :=
  mk (_command j) (_pid j) v (_process j) (_pollMillis j) (_pollTimer j) (_env j)
     (_inputCallback j) (_errorCallback j) (_terminateCallback j)
     (_stdoutReader j) (_stderrReader j).

Definition set_process (v : option ref) (j : t) : t :=
  mk (_command j) (_pid j) (_flags j) v (_pollMillis j) (_pollTimer j) (_env j)
     (_inputCallback j) (_errorCallback j) (_terminateCallback j)
     (_stdoutReader j) (_stderrReader j).

Definition set_pollMillis (v : option Z) (j : t) : t :=
  mk (_command j) (_pid j) (_flags j) (_process j) v (_pollTimer j) (_env j)
     (_inputCallback j) (_errorCallback j) (_terminateCallback j)
     (_stdoutReader j) (_stderrReader j).

Definition set_pollTimer (v : option Z) (j : t) : t :=
  mk (_command j) (_pid j) (_flags j) (_process j) (_pollMillis j) v (_env j)
     (_inputCallback j) (_errorCallback j) (_terminateCallback j)
     (_stdoutReader j) (_stderrReader j).

Definition set_inputCallback (v : option Callback) (j : t) : t :=
  mk (_command j) (_pid j) (_flags j) (_process j) (_pollMillis j) (_pollTimer j)
     (_env j) v (_errorCallback j) (_terminateCallback j)
     (_stdoutReader j) (_stderrReader j).

Definition set_errorCallback (v : option Callback) (j : t) : t :=
  mk (_command j) (_pid j) (_flags j) (_process j) (_pollMillis j) (_pollTimer j)
     (_env j) (_inputCallback j) v (_terminateCallback j)
     (_stdoutReader j) (_stderrReader j).

Definition set_terminateCallback (v : option Callback) (j : t) : t :=
  mk (_command j) (_pid j) (_flags j) (_process j) (_pollMillis j) (_pollTimer j)
     (_env j) (_inputCallback j) (_errorCallback j) v
     (_stdoutReader j) (_stderrReader j).

Definition set_stdoutReader (v : option ref) (j : t) : t :=
  mk (_command j) (_pid j) (_flags j) (_process j) (_pollMillis j) (_pollTimer j)
     (_env j) (_inputCallback j) (_errorCallback j) (_terminateCallback j)
     v (_stderrReader j).

Definition set_stderrReader (v : option ref) (j : t) : t :=
  mk (_command j) (_pid j) (_flags j) (_process j) (_pollMillis j) (_pollTimer j)
     (_env j) (_inputCallback j) (_errorCallback j) (_terminateCallback j)
     (_stdoutReader j) v.

(** A Job and the world around it. *)
Record State := mkState { job : t; world : World }.

(** Methods run in a state and exception monad; what a method changed
    before it raised stays changed. *)
Definition M (A : Type) : Type := State -> Outcome A * State.

Definition ret {A} (a : A) : M A := fun s => (Return a, s).

Definition raise {A} (e : Exn) : M A := fun s => (Raise e, s).

Definition bind {A B} (m : M A) (k : A -> M B) : M B :=
  fun s =>
    match m s with
    | (Return a, s') => k a s'
    | (Raise e, s') => (Raise e, s')
    end.

Notation "'let*' x := m 'in' k" := (bind m (fun x => k))
  (at level 10, x name, m at level 100, k at level 200, only parsing).
Notation "'exec' m 'in' k" := (bind m (fun _ => k))
  (at level 10, m at level 100, k at level 200, only parsing).

Definition self {A} (f : t -> A) : M A := fun s => (Return (f (job s)), s).

Definition assign (f : t -> t) : M unit :=
  fun s => (Return tt, {| job := f (job s); world := world s |}).

Definition inWorld {A} (f : World -> A) : M A := fun s => (Return (f (world s)), s).

Definition onWorld (f : World -> World) : M unit :=
  fun s => (Return tt, {| job := job s; world := f (world s) |}).

Definition log (o : Op) : M unit :=
  onWorld (fun w => mkWorld (processes w) (readers w) (callAfter w) (invoked w)
                            (trace w ++ [o])).

Definition set_processes (ps : list Popen.t) (w : World) : World :=
  mkWorld ps (readers w) (callAfter w) (invoked w) (trace w).

Definition set_readers (rs : list PipeReader.t) (w : World) : World :=
  mkWorld (processes w) rs (callAfter w) (invoked w) (trace w).

Definition set_callAfter (q : list Call) (w : World) : World :=
  mkWorld (processes w) (readers w) q (invoked w) (trace w).

Definition set_invoked (l : list (Callback * list PyVal)) (w : World) : World :=
  mkWorld (processes w) (readers w) (callAfter w) l (trace w).

(** The receiver of a method call: [None] has no attributes. *)
Definition receiver (o : option ref) (attr : string) : M ref :=
  match o with
  | Some r => ret r
  | None => raise (AttributeError attr)
  end.

Definition theProcess (p : ref) : M Popen.t :=
  let* o := inWorld (fun w => processes w !! p) in
  match o with Some x => ret x | None => raise DanglingRef end.

Definition theReader (r : ref) : M PipeReader.t :=
  let* o := inWorld (fun w => readers w !! r) in
  match o with Some x => ret x | None => raise DanglingRef end.

Definition putProcess (p : ref) (x : Popen.t) : M unit :=
  onWorld (fun w => set_processes (<[p := x]> (processes w)) w).

Definition putReader (r : ref) (x : PipeReader.t) : M unit :=
  onWorld (fun w => set_readers (<[r := x]> (readers w)) w).

(** *** Calls on the objects the Job holds *)

Definition Popen_poll (p : ref) : M (option Z) :=
  let* x := theProcess p in
  exec log (OpProcPoll p) in
  exec putProcess p (snd (Popen.poll x)) in
  ret (fst (Popen.poll x)).

Definition Popen_terminate (p : ref) : M unit :=
  let* x := theProcess p in
  exec log (OpProcTerminate p) in
  putProcess p (Popen.terminate x).

Definition Popen_new (command : string) (cwd : option string) (newpid : Z) : M ref :=
  let* p := inWorld (fun w => length (processes w)) in
  exec onWorld (fun w => set_processes (processes w ++ [Popen.spawn newpid]) w) in
  exec log (OpPopen command cwd p) in
  ret p.

Definition PipeReader_new : M ref :=
  let* r := inWorld (fun w => length (readers w)) in
  exec onWorld (fun w => set_readers (readers w ++ [PipeReader.init]) w) in
  exec log (OpReaderNew r) in
  ret r.

Definition PipeReader_start (o : option ref) : M unit :=
  let* r := receiver o "start" in
  let* x := theReader r in
  exec log (OpReaderStart r) in
  putReader r (PipeReader.start x).

Definition PipeReader_stop (o : option ref) : M unit :=
  let* r := receiver o "stop" in
  let* x := theReader r in
  exec log (OpReaderStop r) in
  putReader r (PipeReader.stop x).

Definition PipeReader_isAvailable (o : option ref) : M bool :=
  let* r := receiver o "isAvailable" in
  let* x := theReader r in
  exec log (OpReaderIsAvailable r) in
  ret (PipeReader.isAvailable x).

Definition PipeReader_read (o : option ref) : M string :=
  let* r := receiver o "read" in
  let* x := theReader r in
  exec log (OpReaderRead r) in
  exec putReader r (snd (PipeReader.read x)) in
  ret (fst (PipeReader.read x)).

(** [self._pollTimer.Start(ms, oneShot=wx.TIMER_CONTINUOUS)] *)
Definition Timer_Start (ms : Z) : M unit :=
  exec log (OpTimerStart ms) in
  assign (set_pollTimer (Some ms)).

Definition Timer_Stop : M unit :=
  exec log OpTimerStop in
  assign (set_pollTimer None).

Definition Timer_IsRunning : M bool :=
  self (fun j => match _pollTimer j with Some _ => true | None => false end).

(** [wx.CallAfter(f, *args)]: queued for the host event loop. *)
Definition CallAfter (f : Callable) (a : list PyVal) : M unit :=
  exec log (OpCallAfter (mkCall f a)) in
  onWorld (fun w => set_callAfter (callAfter w ++ [mkCall f a]) w).

Definition when (b : bool) (m : M unit) : M unit := if b then m else ret tt.

(** *** The methods *)

(** The [pollMillis] setter, for the documented [int or None] values. *)
Definition pollMillis_set (val : option Z) : M unit :=
  exec assign (set_pollMillis val) in
  let* running := Timer_IsRunning in
  if negb running then ret tt
  else
    let* pm := self _pollMillis in
    match pm with
    | None => Timer_Stop
    | Some ms => Timer_Start ms
    end.

(** [__init__], run on a blank object. *)
Definition blank (command : string) (flags : Z) (env : option (list (string * string))) : t :=
  {| _command := command; _pid := None; _flags := flags; _process := None;
     _pollMillis := None; _pollTimer := None; _env := env;
     _inputCallback := None; _errorCallback := None; _terminateCallback := None;
     _stdoutReader := None; _stderrReader := None |}.

Definition __init__ (terminateCallback inputCallback errorCallback : option Callback)
    (pollMillis : option Z) : M unit :=
  exec assign (set_inputCallback inputCallback) in
  exec assign (set_errorCallback errorCallback) in
  exec assign (set_terminateCallback terminateCallback) in
  exec pollMillis_set pollMillis in
  exec assign (set_stdoutReader None) in
  assign (set_stderrReader None).

(** [Job(command, flags, terminateCallback, inputCallback, errorCallback,
    pollMillis, env)] in world [w]. *)
Definition new (command : string) (flags : Z)
    (terminateCallback inputCallback errorCallback : option Callback)
    (pollMillis : option Z) (env : option (list (string * string)))
    (w : World) : Outcome unit * State :=
  __init__ terminateCallback inputCallback errorCallback pollMillis
    {| job := blank command flags env; world := w |}.

(** [self._pid != 0 and self._process is not None]; [None != 0] holds. *)
Definition isRunning (j : t) : bool :=
  negb (bool_decide (_pid j = Some 0)) &&
  match _process j with Some _ => true | None => false end.

Definition onTerminate (exitCode : PyVal) : M unit :=
  let* running := Timer_IsRunning in
  exec when running Timer_Stop in
  let* cb := self _terminateCallback in
  match cb with
  | Some f =>
      let* pid := self _pid in
      CallAfter (UserFn f) [of_optZ pid; exitCode]
  | None => ret tt
  end.

(** [start(cwd)].  [spawn] is what the operating system answers to
    [Popen]: the pid of the new process, or [None] when it cannot be
    created. *)
Definition start (cwd : option string) (spawn : option Z) : M PyVal :=
  let* command := self _command in
  match spawn with
  | None => raise OSError
  | Some newpid =>
      let* p := Popen_new command cwd newpid in
      exec assign (set_process (Some p)) in
      let* proc := self _process in
      let* p' := receiver proc "pid" in
      let* x := theProcess p' in
      exec assign (set_pid (Some (Popen.pid x))) in
      let* out := PipeReader_new in
      exec assign (set_stdoutReader (Some out)) in
      let* err := PipeReader_new in
      exec assign (set_stderrReader (Some err)) in
      let* r1 := self _stdoutReader in
      exec PipeReader_start r1 in
      let* r2 := self _stderrReader in
      exec PipeReader_start r2 in
      let* pm := self _pollMillis in
      exec match pm with
           | Some ms => Timer_Start ms
           | None => ret tt
           end in
      let* pid := self _pid in
      ret (of_optZ pid)
  end.

Definition terminate (signal flags : Z) : M PyVal :=
  let* running := self isRunning in
  if negb running then ret VNone
  else
    exec Timer_Stop in
    let* proc := self _process in
    let* p := receiver proc "terminate" in
    exec Popen_terminate p in
    let* r1 := self _stdoutReader in
    exec PipeReader_stop r1 in
    let* r2 := self _stderrReader in
    exec PipeReader_stop r2 in
    let* proc' := self _process in
    let* p' := receiver proc' "returncode" in
    let* x := theProcess p' in
    exec onTerminate (of_optZ (Popen.returncode x)) in
    exec assign (fun j => set_process None (set_pid None j)) in
    exec assign (set_flags 0) in
    ret VNone.

Definition command_set (val : string) : M unit :=
  let* running := self isRunning in
  if running then
    raise (AttributeError "Cannot set property `command` if the subprocess is running!")
  else assign (set_command val).

Definition flags_set (val : Z) : M unit :=
  let* running := self isRunning in
  if running then
    raise (AttributeError "Cannot set property `flags` if the subprocess is running!")
  else assign (set_flags val).

Definition poll : M PyVal :=
  let* proc := self _process in
  match proc with
  | None => ret VNone
  | Some p =>
      let* retCode := Popen_poll p in
      let* r1 := self _stdoutReader in
      let* avail1 := PipeReader_isAvailable r1 in
      exec when avail1 (
        let* r := self _stdoutReader in
        let* stdinText := PipeReader_read r in
        let* cb := self _inputCallback in
        match cb with
        | Some f => CallAfter (UserFn f) [VStr stdinText]
        | None => ret tt
        end) in
      let* r2 := self _stderrReader in
      let* avail2 := PipeReader_isAvailable r2 in
      exec when avail2 (
        let* r := self _stderrReader in
        let* stderrText := PipeReader_read r in
        let* cb := self _errorCallback in
        match cb with
        | Some f => CallAfter (UserFn f) [VStr stderrText]
        | None => ret tt
        end) in
      exec match retCode with
           | Some c => CallAfter BoundOnTerminate [VInt c]
           | None => ret tt
           end in
      ret VNone
  end.

Definition onNotify : M PyVal := poll.

(** *** The host and the environment *)

(** One turn of the host event loop: the oldest pending [wx.CallAfter]
    call is made.  A host callback is only recorded: what it does is the
    host's business. *)
Definition dispatch : M unit :=
  let* q := inWorld callAfter in
  match q with
  | [] => ret tt
  | c :: q' =>
      exec onWorld (set_callAfter q') in
      match fn c with
      | UserFn f => onWorld (fun w => set_invoked (invoked w ++ [(f, args c)]) w)
      | BoundOnTerminate =>
          match args c with
          | [exitCode] => onTerminate exitCode
          | _ => raise TypeError
          end
      end
  end.

Fixpoint loop (fuel : nat) : M unit :=
  match fuel with
  | O => ret tt
  | S n =>
      let* q := inWorld callAfter in
      match q with
      | [] => ret tt
      | _ :: _ => exec dispatch in loop n
      end
  end.

(** A pending [onTerminate] queues at most one more call, a host
    callback queues none: this many turns empty the queue. *)
Definition turns (q : list Call) : nat :=
  list_sum (map (fun c => match fn c with UserFn _ => 1 | BoundOnTerminate => 2 end)%nat q).

(** The host event loop runs until nothing is pending. *)
Definition MainLoop : M unit :=
  let* q := inWorld callAfter in
  loop (turns q).

(** What can happen to a Job: the host calls a method, the timer
    elapses, the event loop runs, the child exits, a reader's worker
    thread moves. *)
Inductive Action :=
| Start (cwd : option string) (spawn : option Z)
| Terminate (signal flags : Z)
| Poll
| SetCommand (val : string)
| SetFlags (val : Z)
| SetPollMillis (val : option Z)
| SetInputCallback (val : option Callback)
| SetErrorCallback (val : option Callback)
| SetTerminateCallback (val : option Callback)
| Tick
| RunLoop
| ChildExit (p : ref) (code : Z)
| WorkerStep (r : ref) (e : PipeReader.WorkerEvent).

Definition void {A} (m : M A) : M PyVal := exec m in ret VNone.

Definition workerStep (e : PipeReader.WorkerEvent) (x : PipeReader.t) : PipeReader.t :=
  match PipeReader.run_step e x with Some x' => x' | None => x end.

Definition act (a : Action) : M PyVal :=
  match a with
  | Start cwd spawn => start cwd spawn
  | Terminate signal flags => terminate signal flags
  | Poll => poll
  | SetCommand val => void (command_set val)
  | SetFlags val => void (flags_set val)
  | SetPollMillis val => void (pollMillis_set val)
  | SetInputCallback val => void (assign (set_inputCallback val))
  | SetErrorCallback val => void (assign (set_errorCallback val))
  | SetTerminateCallback val => void (assign (set_terminateCallback val))
  | Tick =>
      let* running := Timer_IsRunning in
      if running then onNotify else ret VNone
  | RunLoop => void MainLoop
  | ChildExit p code =>
      void (onWorld (fun w => set_processes (alter (Popen.child_exit code) p (processes w)) w))
  | WorkerStep r e =>
      void (onWorld (fun w => set_readers (alter (workerStep e) r (readers w)) w))
  end.

(** A history: the state it leads to.  The host goes on after a method
    raised. *)
Fixpoint acts (l : list Action) (s : State) : State :=
  match l with
  | [] => s
  | a :: l' => acts l' (snd (act a s))
  end.

(** How often host callback [f] was run. *)
Definition timesInvoked (f : Callback) (s : State) : nat :=
  length (filter (fun c => fst c = f) (invoked (world s))).

Definition is_start (a : Action) : bool :=
  match a with Start _ _ => true | _ => false end.

(** A history in which [start] is never called. *)
Definition no_start (h : list Action) : bool := forallb (fun a => negb (is_start a)) h.

(** The arguments of the constructor. *)
Record Args := mkArgs {
  a_command : string;
  a_flags : Z;
  a_terminateCallback : option Callback;
  a_inputCallback : option Callback;
  a_errorCallback : option Callback;
  a_pollMillis : option Z;
  a_env : option (list (string * string))
}.

Definition create (a : Args) (w : World) : State :=
  snd (new (a_command a) (a_flags a) (a_terminateCallback a) (a_inputCallback a)
           (a_errorCallback a) (a_pollMillis a) (a_env a) w).

(** Idle: constructed, [start] never called since. *)
Definition idle (s : State) : Prop :=
  exists a w h, no_start h = true /\ s = acts h (create a w).

(** Terminated: [terminate] returned, [start] never called since. *)
Definition terminated (s : State) : Prop :=
  exists s0 signal flags v h,
    fst (terminate signal flags s0) = Return v /\
    no_start h = true /\
    s = acts h (snd (terminate signal flags s0)).

(** The pending calls among some operations. *)
Definition calls_of (ops : list Op) : list Call :=
  omap (fun o => match o with OpCallAfter c => Some c | _ => None end) ops.

(** The steps of one [poll], as the specification orders them: what is
    done for one reader holding [x], with callback [cb] ... *)
Definition data_ops (r : ref) (x : PipeReader.t) (cb : option Callback) : list Op :=
  OpReaderIsAvailable r ::
  match PipeReader._queue x with
  | Some text =>
      OpReaderRead r ::
      match cb with
      | Some f => [OpCallAfter (mkCall (UserFn f) [VStr text])]
      | None => []
      end
  | None => []
  end.

(** ... and what is done with the exit status. *)
Definition exit_ops (retCode : option Z) : list Op :=
  match retCode with
  | Some c => [OpCallAfter (mkCall BoundOnTerminate [VInt c])]
  | None => []
  end.

(** The state [start] leaves when the operating system grants a process
    with pid [newpid]: the new process and the two new, started readers
    are added at the end of the store and the Job points to them. *)
Definition started (cwd : option string) (newpid : Z) (s : State) : State :=
  let p := length (processes (world s)) in
  let r := length (readers (world s)) in
  {| job :=
       let j := set_stderrReader (Some (S r))
                  (set_stdoutReader (Some r)
                     (set_pid (Some newpid) (set_process (Some p) (job s)))) in
       match _pollMillis (job s) with
       | Some ms => set_pollTimer (Some ms) j
       | None => j
       end;
     world :=
       {| processes := processes (world s) ++ [Popen.spawn newpid];
          readers :=
            <[S r := PipeReader.start PipeReader.init]>
              (<[r := PipeReader.start PipeReader.init]>
                 ((readers (world s) ++ [PipeReader.init]) ++ [PipeReader.init]));
          callAfter := callAfter (world s);
          invoked := invoked (world s);
          trace :=
            trace (world s)
            ++ [OpPopen (_command (job s)) cwd p; OpReaderNew r; OpReaderNew (S r);
                OpReaderStart r; OpReaderStart (S r)]
            ++ match _pollMillis (job s) with
               | Some ms => [OpTimerStart ms]
               | None => []
               end |} |}.

(** A Job with its three callbacks (host functions 7, 1 and 2) and no
    timer: the host polls by hand. *)
Definition demo_args : Args :=
  mkArgs "child" 0 (Some 7%nat) (Some 1%nat) (Some 2%nat) None None.

Definition demo : State := create demo_args emptyWorld.

(** The Job is started and its child (pid 4242) exits with code 0. *)
Definition child_exited : list Action := [Start None (Some 4242); ChildExit 0%nat 0].

(** [n] times: the host calls [poll], then its event loop runs. *)
Fixpoint polls (n : nat) : list Action :=
  match n with
  | O => []
  | S k => Poll :: RunLoop :: polls k
  end.

(** The state of that Job after the exit: [rc] is the [returncode]
    attribute of its process, [inv] the host callbacks run so far, [tr]
    the operations made so far.  Nothing is pending, nothing is staged. *)
Definition after_exit (rc : option Z) (inv : list (Callback * list PyVal))
    (tr : list Op) : State :=
  {| job :=
       {| _command := "child"; _pid := Some 4242; _flags := 0;
          _process := Some 0%nat; _pollMillis := None; _pollTimer := None;
          _env := None; _inputCallback := Some 1%nat;
          _errorCallback := Some 2%nat; _terminateCallback := Some 7%nat;
          _stdoutReader := Some 0%nat; _stderrReader := Some 1%nat |};
     world :=
       {| processes := [Popen.mk 4242 rc (Some 0) false];
          readers := [PipeReader.start PipeReader.init;
                      PipeReader.start PipeReader.init];
          callAfter := []; invoked := inv; trace := tr |} |}.

(** A started Job with a line staged on each pipe whose child has
    just exited. *)
Definition busy : State :=
  acts [Start None (Some 4242);
        WorkerStep 0%nat (PipeReader.Readline PipeReader.line1);
        WorkerStep 1%nat (PipeReader.Readline PipeReader.line2);
        ChildExit 0%nat 0] demo.

(** The exit callback as the host sees it run. *)
Definition onExit_call : Callback * list PyVal := (7%nat, [VInt 4242; VInt 0]).

Definition is_loop (a : Action) : bool :=
  match a with RunLoop => true | _ => false end.

(** The references a Job with a process holds name objects of the store. *)
Definition refs_ok (s : State) : Prop :=
  forall p, _process (job s) = Some p ->
    (p < length (processes (world s)))%nat /\
    exists out err,
      _stdoutReader (job s) = Some out /\ _stderrReader (job s) = Some err /\
      (out < length (readers (world s)))%nat /\
      (err < length (readers (world s)))%nat.

(** A pending call of [onTerminate] carries its one argument. *)
Definition call_ok (c : Call) : Prop :=
  fn c = BoundOnTerminate -> exists v, args c = [v].

Definition wf (s : State) : Prop :=
  refs_ok s /\ Forall call_ok (callAfter (world s)).


(** *** The [pollMillis] setter on any value

    [pollMillis_set] takes the values the property is documented for.
    The setter itself accepts whatever it is handed and sorts it out:
    [isinstance(val, (int, float))] (a [bool] is an [int]) goes through
    [int(val)], [None] is stored as it is, anything else raises
    [TypeError]; and [int(val)] raises for a float that has no integer
    value.  Nothing is assigned when it raises, and the timer is not
    looked at. *)

(** A float as [int()] sees it: a finite one is truncated toward zero,
    [trunc] being the result; the others are refused. *)
Inductive PyFloat :=
| Finite (trunc : Z)
| Infinity                      (* [inf], [-inf]: [OverflowError] *)
| NaN.                          (* [ValueError] *)

(** Whatever the host assigns. *)
Inductive Arg :=
| Val (v : PyVal)
| Float (f : PyFloat)
| Object.                       (* any other object: a list, a function, ... *)

(** [int(val)] for [val] an [int], a [bool] or a [float]. *)
Definition int_of_float (f : PyFloat) : M Z :=
  match f with
  | Finite z => ret z
  | Infinity => raise OverflowError
  | NaN => raise ValueError
  end.

Definition pollMillis_set_any (val : Arg) : M unit :=
  exec match val with
       | Val (VInt z) => assign (set_pollMillis (Some z))
       | Val (VBool b) => assign (set_pollMillis (Some (Z.b2z b)))
       | Float f =>
           let* z := int_of_float f in
           assign (set_pollMillis (Some z))
       | Val VNone => assign (set_pollMillis None)
       | Val (VStr _) | Object => raise TypeError
       end in
  let* running := Timer_IsRunning in
  if negb running then ret tt
  else
    let* pm := self _pollMillis in
    match pm with
    | None => Timer_Stop
    | Some ms => Timer_Start ms
    end.









(** The state one [poll] leaves, for a Job whose process [x] (at [p])
    and readers [a] (stdout, at [out]) and [b] (stderr, at [err]) are in
    the store. *)
Definition polled (s : State) (p out err : ref) (x : Popen.t)
    (a b : PipeReader.t) : State :=
  let ops := [OpProcPoll p]
             ++ data_ops out a (_inputCallback (job s))
             ++ data_ops err b (_errorCallback (job s))
             ++ exit_ops (fst (Popen.poll x)) in
  {| job := job s;
     world :=
       {| processes := <[p := snd (Popen.poll x)]> (processes (world s));
          readers :=
            <[err := snd (PipeReader.read b)]>
              (<[out := snd (PipeReader.read a)]> (readers (world s)));
          callAfter := callAfter (world s) ++ calls_of ops;
          invoked := invoked (world s);
          trace := trace (world s) ++ ops |} |}.

(** [n] times: the timer elapses, then the event loop runs. *)
Fixpoint ticks (n : nat) : list Action :=
  match n with
  | O => []
  | S k => Tick :: RunLoop :: ticks k
  end.

(** What the event loop runs for a pending call to a host callback. *)
Definition ran (c : Call) : list (Callback * list PyVal) :=
  match fn c with
  | UserFn f => [(f, args c)]
  | BoundOnTerminate => []
  end.

(** The text a call to a data callback carries. *)
Definition text_of (a : list PyVal) : list string :=
  match a with
  | [VStr t] => [t]
  | _ => []
  end.

(** The texts given to host callbacks so far, in order. *)
Definition texts (l : list (Callback * list PyVal)) : list string :=
  flat_map (fun c => text_of (snd c)) l.

(** The texts waiting in the [wx.CallAfter] queue, in order. *)
Definition queued_texts (q : list Call) : list string :=
  flat_map (fun c => match fn c with
                     | UserFn _ => text_of (args c)
                     | BoundOnTerminate => []
                     end) q.

(** What reader [r] of the store still holds. *)
Definition held_at (r : ref) (s : State) : string :=
  match readers (world s) !! r with
  | Some x => PipeReader.held x
  | None => ""%string
  end.

(** The stdout text on its way to the host: given to a callback, then
    queued, then held by the reader. *)
Definition stdout_text (out : ref) (s : State) : string :=
  join (texts (invoked (world s)))
  +:+ join (queued_texts (callAfter (world s)))
  +:+ held_at out s.

(** What action [a] makes arrive at reader [out]: the line a [readline]
    returns to its worker, when the worker is there to take it. *)
Definition arrival (out : ref) (a : Action) (s : State) : string :=
  match a with
  | WorkerStep r (PipeReader.Readline t) =>
      if decide (r = out) then
        match readers (world s) !! r with
        | Some x =>
            match PipeReader.run_step (PipeReader.Readline t) x with
            | Some _ => t
            | None => ""%string
            end
        | None => ""%string
        end
      else ""%string
  | _ => ""%string
  end.

Fixpoint arrivals (out : ref) (h : list Action) (s : State) : string :=
  match h with
  | [] => ""%string
  | a :: h' => arrival out a s +:+ arrivals out h' (snd (act a s))
  end.

(** Events on the way of the stdout data: the child writes to stdout or
    exits, the host polls, the timer ticks, the event loop runs. *)
Definition on_stdout_path (out : ref) (a : Action) : bool :=
  match a with
  | Poll | Tick | RunLoop | ChildExit _ _ => true
  | WorkerStep r _ => bool_decide (r = out)
  | _ => false
  end.

(** A started Job with an input callback, whose stderr reader has
    nothing staged. *)
Definition listening (out err : ref) (s : State) : Prop :=
  (exists p, _process (job s) = Some p /\ is_Some (processes (world s) !! p)) /\
  _stdoutReader (job s) = Some out /\ _stderrReader (job s) = Some err /\
  out <> err /\
  is_Some (readers (world s) !! out) /\
  (exists b, readers (world s) !! err = Some b /\ PipeReader._queue b = None) /\
  is_Some (_inputCallback (job s)).

(** An armed timer runs at the stored polling interval. *)
Definition timer_in_sync (j : t) : Prop :=
  forall ms, _pollTimer j = Some ms -> _pollMillis j = Some ms.

(** Reader [r] of the store is none of the Job's and has [text] staged. *)
Definition orphan_with (r : ref) (text : string) (s : State) : Prop :=
  _stdoutReader (job s) <> Some r /\ _stderrReader (job s) <> Some r /\
  exists x, readers (world s) !! r = Some x /\ PipeReader._queue x = Some text.


End Job.

(** * Properties *)

(** ** Strings *)

Lemma append_nil_r (s : string) : s +:+ "" = s.
Proof.
  induction s as [|c s IH]; [reflexivity|].
  change (String c (s +:+ "") = String c s). now rewrite IH.
Qed.

Lemma append_assoc (a b c : string) : (a +:+ b) +:+ c = a +:+ (b +:+ c).
Proof.
  induction a as [|x a IH]; [reflexivity|].
  change (String x ((a +:+ b) +:+ c) = String x (a +:+ (b +:+ c))).
  now rewrite IH.
Qed.

Lemma length_append (a b : string) :
  String.length (a +:+ b) = (String.length a + String.length b)%nat.
Proof.
  induction a as [|x a IH]; [reflexivity|].
  change (S (String.length (a +:+ b)) = S (String.length a + String.length b)).
  now rewrite IH.
Qed.

Lemma join_cons (x : string) (xs : list string) : join (x :: xs) = x +:+ join xs.
Proof.
  unfold join. destruct xs as [|y ys]; simpl.
  - now rewrite append_nil_r.
  - reflexivity.
Qed.

Lemma join_app (xs ys : list string) : join (xs ++ ys) = join xs +:+ join ys.
Proof.
  induction xs as [|x xs IH].
  - reflexivity.
  - rewrite <- app_comm_cons, !join_cons, IH, append_assoc. reflexivity.
Qed.

Lemma join_snoc (xs : list string) (x : string) : join (xs ++ [x]) = join xs +:+ x.
Proof. rewrite join_app, join_cons. simpl. now rewrite append_nil_r. Qed.

(** ** PipeReader *)

Section PipeReaderFacts.
Import PipeReader.

Lemma full_isAvailable (r : t) : isAvailable r = true <-> is_Some (_queue r).
Proof.
  unfold isAvailable, full. destruct (_queue r); split; intros H;
    try reflexivity; try discriminate; eauto.
  destruct H; discriminate.
Qed.

(** C9. [read] is a total function of the reader (it cannot wait): with
    the slot occupied it returns the staged chunk and leaves the slot
    empty; with the slot empty it returns [''], and any number of further
    reads return [''] each and leave the reader as it was. *)
Theorem C9_read_takes_slot_or_returns_empty (r : t) :
  match _queue r with
  | Some chunk =>
      isAvailable r = true /\
      read r = (chunk, set_queue None r) /\
      isAvailable (snd (read r)) = false
  | None =>
      isAvailable r = false /\
      forall n, reads n r = (repeat ""%string n, r)
  end.
Proof.
  destruct (_queue r) as [chunk|] eqn:Hq.
  - repeat split.
    + unfold isAvailable, full. now rewrite Hq.
    + unfold read. now rewrite Hq.
    + unfold read. rewrite Hq. reflexivity.
  - split.
    + unfold isAvailable, full. now rewrite Hq.
    + induction n as [|n IH]; [reflexivity|].
      simpl. unfold read at 1. rewrite Hq, IH. reflexivity.
Qed.

(** What [read] returns is taken off what the reader holds. *)
Lemma read_held (r : t) : fst (read r) +:+ held (snd (read r)) = held r.
Proof.
  unfold read, held. destruct (_queue r) as [q|] eqn:Hq; simpl; [|rewrite Hq]; reflexivity.
Qed.

(** A chunk goes behind everything the reader holds. *)
Lemma enqueue_held (s : string) (r : t) : held (enqueue s r) = held r +:+ s.
Proof.
  destruct r as [[q|] ov st ph cl]; unfold enqueue, held, full; simpl.
  - now rewrite join_snoc, append_assoc.
  - destruct ov as [|x xs]; simpl.
    + unfold join. simpl. now rewrite append_nil_r.
    + unfold join at 2. simpl. now rewrite append_nil_r.
Qed.

Lemma run_step_held (e : WorkerEvent) (r r' : t) :
  run_step e r = Some r' ->
  held r' = held r +:+ match e with Readline s => s | Wake => "" end.
Proof.
  unfold run_step. intros H.
  destruct (phase r), e as [s|]; try discriminate.
  - destruct (decide (s = ""%string)) as [->|Hs]; inversion H; subst.
    + now rewrite append_nil_r.
    + apply enqueue_held.
  - destruct (_stopSignal r); inversion H; subst; now rewrite append_nil_r.
Qed.

(** Nothing is lost or reordered inside the reader: what was returned,
    followed by what is still held, is what the pipe produced. *)
Lemma conservation (es : list Event) :
  forall r outs r' outs',
    sys_run es (r, outs) = Some (r', outs') ->
    join outs' +:+ held r' = (join outs +:+ held r) +:+ join (produced es).
Proof.
  induction es as [|e es IH]; intros r outs r' outs' H.
  - inversion H; subst. unfold join at 3. simpl. now rewrite append_nil_r.
  - simpl in H. destruct e as [w| |]; simpl in H.
    + destruct (run_step w r) as [r1|] eqn:Hw; [|discriminate].
      simpl in H. apply IH in H. rewrite H.
      rewrite (run_step_held _ _ _ Hw).
      destruct w as [s|]; simpl.
      * destruct (decide (s = ""%string)) as [->|Hs].
        -- now rewrite append_nil_r.
        -- now rewrite join_cons, !append_assoc.
      * now rewrite append_nil_r.
    + destruct (read r) as [v r1] eqn:Hr.
      apply IH in H. rewrite H. f_equal.
      rewrite join_snoc, append_assoc. f_equal.
      pose proof (read_held r) as Hh. rewrite Hr in Hh. exact Hh.
    + apply IH in H. rewrite H. reflexivity.
Qed.

(** The overflow buffer is only ever emptied by a later chunk. *)
Lemma overflow_waits_for_a_chunk (es : list Event) :
  forall r outs r' outs',
    produced es = [] ->
    sys_run es (r, outs) = Some (r', outs') ->
    _overflowBuffer r' = _overflowBuffer r.
Proof.
  induction es as [|e es IH]; intros r outs r' outs' Hp H.
  - now inversion H.
  - simpl in H. destruct e as [w| |]; simpl in H, Hp.
    + destruct (run_step w r) as [r1|] eqn:Hw; [|discriminate].
      simpl in H. destruct w as [s|].
      * destruct (decide (s = ""%string)) as [->|Hs]; [|discriminate].
        rewrite (IH _ _ _ _ Hp H).
        unfold run_step in Hw. destruct (phase r); try discriminate.
        simpl in Hw. now inversion Hw.
      * rewrite (IH _ _ _ _ Hp H).
        unfold run_step in Hw. destruct (phase r); try discriminate.
        destruct (_stopSignal r); now inversion Hw.
    + destruct (read r) as [v r1] eqn:Hr.
      rewrite (IH _ _ _ _ Hp H).
      unfold read in Hr. destruct (_queue r); now inversion Hr.
    + now rewrite (IH _ _ _ _ Hp H).
Qed.

(** C1, on the code: the child writes two lines before the host reads.
    The second line goes to the overflow buffer and stays there whatever
    follows (reads, end of file, sleeps, [stop]) as long as no further
    line arrives: the values returned by [read] never add up to what
    the pipe produced. *)
Theorem C1_last_chunk_stays_in_overflow (es : list Event) (s' : Sys) :
  produced es = [] ->
  sys_run (two_lines ++ es) (start init, []) = Some s' ->
  _overflowBuffer (fst s') = [line2] /\
  produced (two_lines ++ es) = [line1; line2] /\
  join (snd s') <> join (produced (two_lines ++ es)).
Proof.
  intros Hp H. destruct s' as [r' outs'].
  change (sys_run es
            ({| _queue := Some line1; _overflowBuffer := [line2];
                _stopSignal := false; phase := Reading; closed := false |}, [])
          = Some (r', outs')) in H.
  pose proof (overflow_waits_for_a_chunk _ _ _ _ _ Hp H) as Hov.
  pose proof (conservation _ _ _ _ _ H) as Hc.
  simpl in Hov. simpl fst. simpl snd.
  assert (Hprod : produced (two_lines ++ es) = [line1; line2]).
  { change (produced (two_lines ++ es)) with (line1 :: line2 :: produced es).
    now rewrite Hp. }
  rewrite Hprod. split; [exact Hov|]. split; [reflexivity|].
  intros Heq. rewrite Hp in Hc.
  apply (f_equal String.length) in Hc.
  unfold held in Hc. rewrite Hov, Heq in Hc.
  rewrite !length_append in Hc.
  generalize dependent (String.length match _queue r' with Some s => s | None => "" end).
  intros n Hc. simpl _queue in Hc. simpl _overflowBuffer in Hc.
  change (String.length (join [line1; line2])) with 12%nat in Hc.
  change (String.length (join [line2])) with 6%nat in Hc.
  change (String.length (join [])) with 0%nat in Hc.
  change (String.length match Some line1 with Some s => s | None => "" end)
    with 6%nat in Hc.
  lia.
Qed.

Lemma C1_last_chunk_stays_in_overflow_witness :
  exists s',
    sys_run (two_lines ++ [CallRead; Worker (Readline ""); Worker Wake; CallRead; CallRead])
            (start init, []) = Some s' /\
    snd s' = [line1; ""%string; ""%string] /\
    _overflowBuffer (fst s') = [line2] /\
    join (snd s') <> join (produced (two_lines ++ [CallRead; Worker (Readline ""); Worker Wake; CallRead; CallRead])).
Proof.
  eexists. split; [reflexivity|]. split; [reflexivity|].
  split;
    apply (C1_last_chunk_stays_in_overflow
             [CallRead; Worker (Readline ""); Worker Wake; CallRead; CallRead]);
    reflexivity.
Defined.

Lemma worker_run_app (es1 es2 : list WorkerEvent) (r : t) :
  worker_run (es1 ++ es2) r = r' ← worker_run es1 r; worker_run es2 r'.
Proof.
  revert r. induction es1 as [|e es1 IH]; intros r; simpl; [reflexivity|].
  destruct (run_step e r) as [r1|]; simpl; [apply IH | reflexivity].
Qed.

Lemma enqueue_control (s : string) (r : t) :
  phase (enqueue s r) = phase r /\
  closed (enqueue s r) = closed r /\
  _stopSignal (enqueue s r) = _stopSignal r.
Proof.
  unfold enqueue. destruct (negb (full r)); [destruct (_overflowBuffer r)|];
    repeat split.
Qed.

(** While [readline] does not return end of file the worker stays in the
    [for] loop: it neither tests the stop flag nor closes the pipe. *)
Lemma open_pipe_keeps_reading (es : list WorkerEvent) :
  forall r r',
    pipe_open es = true -> phase r = Reading ->
    worker_run es r = Some r' ->
    phase r' = Reading /\ closed r' = closed r /\ _stopSignal r' = _stopSignal r.
Proof.
  induction es as [|e es IH]; intros r r' Ho Hph H.
  - inversion H; subst. auto.
  - simpl in Ho. apply andb_prop in Ho as [He Ho].
    simpl in H. unfold run_step in H. rewrite Hph in H.
    destruct e as [s|]; [|discriminate].
    simpl in He. destruct (decide (s = ""%string)) as [->|Hs]; [discriminate|].
    simpl in H. destruct (enqueue_control s r) as (E1 & E2 & E3).
    apply IH in H; [|assumption|congruence].
    destruct H as (H1 & H2 & H3). repeat split; congruence.
Qed.

Lemma eof_then_sleep_exits (r : t) :
  phase r = Reading -> _stopSignal r = true ->
  exists r', worker_run [Readline ""; Wake] r = Some r' /\ exited r'.
Proof.
  destruct r as [q ov st ph cl]. simpl. intros -> ->.
  eexists. split; [reflexivity|]. split; reflexivity.
Qed.

(** C3, as claimed, does not hold: a started reader whose stop flag is
    set, on a pipe that stays open and silent, is inside [readline]; no
    number of elapsed polling intervals makes it leave [run]. *)
Lemma C3_counterexample : ~ stop_needs_only_time.
Proof.
  intros Hclaim.
  destruct (Hclaim (stop (start init)) eq_refl eq_refl) as (n & r' & Hrun & Hex & _).
  destruct n as [|n]; simpl in Hrun.
  - inversion Hrun; subst. discriminate.
  - discriminate.
Qed.

(** C3, amended.  [stop] sets the flag; the worker tests it only after
    [readline] has returned end of file and the sleep that follows has
    elapsed.  So for a reading worker with the flag set: as long as the
    pipe stays open it keeps reading with the pipe not closed; and as
    soon as end of file arrives, one sleep later it has closed the pipe
    and left [run]. *)
Theorem C3_stop_observed_after_eof_and_sleep (r : t) (es : list WorkerEvent) (r' : t) :
  phase r = Reading -> closed r = false ->
  pipe_open es = true ->
  worker_run es (stop r) = Some r' ->
  (phase r' = Reading /\ closed r' = false) /\
  exists r'', worker_run (es ++ [Readline ""; Wake]) (stop r) = Some r'' /\ exited r''.
Proof.
  intros Hph Hcl Ho Hrun.
  destruct (open_pipe_keeps_reading es (stop r) r' Ho Hph Hrun) as (P1 & P2 & P3).
  simpl in P2, P3. split; [split; congruence|].
  rewrite worker_run_app, Hrun.
  apply (eof_then_sleep_exits r' P1 P3).
Qed.

Lemma C3_stop_observed_after_eof_and_sleep_witness :
  exists r',
    worker_run [Readline line1; Readline line2] (stop (start init)) = Some r' /\
    (phase r' = Reading /\ closed r' = false) /\
    exists r'',
      worker_run ([Readline line1; Readline line2] ++ [Readline ""; Wake])
                 (stop (start init)) = Some r'' /\ exited r''.
Proof.
  eexists. split; [reflexivity|].
  apply (C3_stop_observed_after_eof_and_sleep
           (start init) [Readline line1; Readline line2]); reflexivity.
Defined.

(** *** Further properties of the reader *)

(** X1. From a freshly started reader, along any interleaving of worker
    steps, [read] calls and [stop] calls: the values returned by [read],
    joined, followed by what the reader still holds (slot, then
    overflow buffer) are exactly the chunks the pipe produced, in order.
    So the reads are always a prefix of the stream. *)
Theorem X1_reads_then_held_is_the_stream (es : list Event) (r' : t) (outs' : list string) :
  sys_run es (start init, []) = Some (r', outs') ->
  join outs' +:+ held r' = join (produced es).
Proof.
  intros H. apply conservation in H. rewrite H. reflexivity.
Qed.

Lemma X1_reads_then_held_is_the_stream_witness :
  exists r' outs',
    sys_run [Worker (Readline line1); CallRead; Worker (Readline line2);
             Worker (Readline "tail"); CallRead; CallRead]
            (start init, []) = Some (r', outs') /\
    outs' = [line1; line2; ""%string] /\
    join outs' +:+ held r'
    = join (produced [Worker (Readline line1); CallRead; Worker (Readline line2);
                      Worker (Readline "tail"); CallRead; CallRead]).
Proof.
  eexists. eexists. split; [reflexivity|]. split; [reflexivity|].
  apply (X1_reads_then_held_is_the_stream
           [Worker (Readline line1); CallRead; Worker (Readline line2);
            Worker (Readline "tail"); CallRead; CallRead]).
  reflexivity.
Defined.

Lemma burst_goes_to_overflow (cs : list string) :
  forall r q,
    _queue r = Some q ->
    _queue (enqueue_all cs r) = Some q /\
    _overflowBuffer (enqueue_all cs r) = _overflowBuffer r ++ cs.
Proof.
  induction cs as [|c cs IH]; intros r q Hq; simpl.
  - split; [exact Hq | now rewrite app_nil_r].
  - assert (E : enqueue c r = set_overflowBuffer (_overflowBuffer r ++ [c]) r).
    { unfold enqueue, full. now rewrite Hq. }
    unfold enqueue_all in *. simpl. rewrite E.
    destruct (IH (set_overflowBuffer (_overflowBuffer r ++ [c]) r) q Hq) as [I1 I2].
    split; [exact I1|]. rewrite I2. simpl. now rewrite <- app_assoc.
Qed.

(** X2. While the slot is occupied, a burst of chunks leaves the staged
    chunk alone and is appended to the overflow buffer in arrival
    order (the buffer has no bound). *)
Theorem X2_burst_while_slot_occupied (cs : list string) (r : t) (q : string) :
  _queue r = Some q ->
  _queue (enqueue_all cs r) = Some q /\
  _overflowBuffer (enqueue_all cs r) = _overflowBuffer r ++ cs /\
  fst (read (enqueue_all cs r)) = q.
Proof.
  intros Hq. destruct (burst_goes_to_overflow cs r q Hq) as [H1 H2].
  repeat split; try assumption. unfold read. now rewrite H1.
Qed.

Lemma X2_burst_while_slot_occupied_witness :
  _queue (enqueue_all [line2; "c"%string] (enqueue line1 (start init))) = Some line1 /\
  _overflowBuffer (enqueue_all [line2; "c"%string] (enqueue line1 (start init)))
  = [] ++ [line2; "c"%string] /\
  fst (read (enqueue_all [line2; "c"%string] (enqueue line1 (start init)))) = line1.
Proof.
  apply (X2_burst_while_slot_occupied [line2; "c"%string] (enqueue line1 (start init)) line1).
  reflexivity.
Defined.

(** X3. The slow consumer.  The slot holds [q] and a burst [cs] arrives;
    the host reads (it gets [q] only); the next chunk [c] then carries
    the whole backlog: the following read returns the overflow buffer
    and [cs], joined in order, followed by [c], and the reader is left
    holding nothing. *)
Theorem X3_backlog_comes_with_the_next_chunk
    (cs : list string) (c : string) (r : t) (q : string) :
  _queue r = Some q ->
  let r1 := snd (read (enqueue_all cs r)) in
  let r2 := enqueue c r1 in
  fst (read (enqueue_all cs r)) = q /\
  fst (read r2) = join (_overflowBuffer r ++ cs) +:+ c /\
  held (snd (read r2)) = ""%string /\
  fst (read (snd (read r2))) = ""%string.
Proof.
  intros Hq. destruct (burst_goes_to_overflow cs r q Hq) as [H1 H2].
  destruct (enqueue_all cs r) as [q1 ov1 st1 ph1 cl1]. simpl in *. subst q1 ov1.
  unfold read at 1 2 3. simpl. split; [reflexivity|].
  unfold enqueue, full. simpl.
  destruct (_overflowBuffer r ++ cs) as [|x xs] eqn:E; simpl;
    split; [reflexivity | split; reflexivity | reflexivity | split; reflexivity].
Qed.

Lemma X3_backlog_comes_with_the_next_chunk_witness :
  fst (read (enqueue_all [line2; "c"%string] (enqueue line1 (start init)))) = line1 /\
  fst (read (enqueue "d" (snd (read (enqueue_all [line2; "c"%string]
                                        (enqueue line1 (start init)))))))
  = join ([] ++ [line2; "c"%string]) +:+ "d" /\
  held (snd (read (enqueue "d" (snd (read (enqueue_all [line2; "c"%string]
                                        (enqueue line1 (start init)))))))) = ""%string /\
  fst (read (snd (read (enqueue "d" (snd (read (enqueue_all [line2; "c"%string]
                                        (enqueue line1 (start init))))))))) = ""%string.
Proof.
  apply (X3_backlog_comes_with_the_next_chunk
           [line2; "c"%string] "d" (enqueue line1 (start init)) line1).
  reflexivity.
Defined.

(** How one event moves the control state of the reader. *)
Lemma sys_step_control (e : Event) (r r' : t) (outs outs' : list string) :
  sys_step e (r, outs) = Some (r', outs') ->
  (e = CallStop /\ _stopSignal r' = true /\ phase r' = phase r /\ closed r' = closed r) \/
  (e <> CallStop /\ _stopSignal r' = _stopSignal r /\
   ((phase r' = phase r /\ closed r' = closed r) \/
    (phase r = Reading /\ phase r' = Sleeping /\ closed r' = closed r) \/
    (phase r = Sleeping /\ _stopSignal r = false /\ phase r' = Reading /\
     closed r' = closed r) \/
    (phase r = Sleeping /\ _stopSignal r = true /\ phase r' = Exited /\
     closed r' = true))).
Proof.
  destruct r as [q ov st ph cl]. destruct e as [[s|]| |]; simpl.
  - unfold run_step. simpl. destruct ph; try discriminate. simpl.
    destruct (decide (s = ""%string)); intros H; inversion H; subst; clear H;
      right; (split; [discriminate|]).
    + split; [reflexivity|]. right. left. auto.
    + destruct (enqueue_control s (mk q ov st Reading cl)) as (E1 & E2 & E3).
      split; [exact E3|]. left. rewrite E1, E2. simpl. repeat split.
  - unfold run_step. simpl. destruct ph; try discriminate. simpl.
    destruct st; intros H; inversion H; subst; clear H;
      right; (split; [discriminate|]); (split; [reflexivity|]).
    + right. right. right. auto.
    + right. right. left. auto.
  - unfold read. simpl. destruct q; intros H; inversion H; subst; clear H;
      right; (split; [discriminate|]); (split; [reflexivity|]); left; simpl; auto.
  - intros H; inversion H; subst. left. auto.
Qed.

(** A property kept by every event is kept along every trace. *)
Lemma sys_run_keeps (P : t -> Prop) :
  (forall e r outs r' outs',
      sys_step e (r, outs) = Some (r', outs') -> P r -> P r') ->
  forall es r outs r' outs',
    sys_run es (r, outs) = Some (r', outs') -> P r -> P r'.
Proof.
  intros Hstep. induction es as [|e es IH]; intros r outs r' outs' H HP.
  - now inversion H; subst.
  - simpl in H. destruct (sys_step e (r, outs)) as [[r1 outs1]|] eqn:Hs;
      [|discriminate].
    simpl in H. eapply IH; [exact H|]. eapply Hstep; eauto.
Qed.

Lemma sys_step_closes_on_exit (e : Event) (r r' : t) (outs outs' : list string) :
  sys_step e (r, outs) = Some (r', outs') -> closes_on_exit r -> closes_on_exit r'.
Proof.
  unfold closes_on_exit. intros Hs (I1 & I2 & I3).
  apply sys_step_control in Hs.
  destruct Hs as [(_ & S1 & S2 & S3)
                 |(_ & S1 & [(S2 & S3)
                            |[(S2 & S3 & S4)
                             |[(S2 & S2' & S3 & S4)|(S2 & S2' & S3 & S4)]]])];
    rewrite ?S1, ?S2, ?S3, ?S4 in *;
    destruct (closed r); repeat split; intros; try congruence;
    try (exfalso; intuition congruence); intuition congruence.
Qed.

(** The calls of the host leave the worker where it is. *)
Lemma host_step_control (e : Event) (r r' : t) (outs outs' : list string) :
  e = CallRead \/ e = CallStop ->
  sys_step e (r, outs) = Some (r', outs') ->
  phase r' = phase r /\ closed r' = closed r.
Proof.
  destruct r as [q ov st ph cl].
  intros [-> | ->]; simpl.
  - unfold read. simpl. destruct q; intros H; inversion H; subst; auto.
  - intros H; inversion H; subst; auto.
Qed.

(** One step of the thread: an event of [sys_step], which a dead worker
    has no part in, or the exception that ends the worker in its read
    loop. *)
Lemma thread_step_cases (e : RunEvent) (r r' : t) (outs outs' : list string)
    (d d' : bool) :
  thread_step e (r, outs, d) = Some (r', outs', d') ->
  (exists e0, e = Normal e0 /\ sys_step e0 (r, outs) = Some (r', outs') /\ d' = d /\
              (d = true -> e0 = CallRead \/ e0 = CallStop)) \/
  (e = ReadlineRaises /\ r' = r /\ outs' = outs /\ d = false /\ d' = true /\
   phase r = Reading).
Proof.
  destruct e as [[w| |]|]; simpl.
  - destruct d; [discriminate|].
    destruct (run_step w r) as [r1|] eqn:Hr; [|discriminate].
    simpl. intros H; inversion H; subst.
    left. exists (Worker w). simpl. rewrite Hr. simpl.
    repeat split; auto. discriminate.
  - destruct (read r) as [v r1] eqn:Hr. simpl. intros H; inversion H; subst.
    left. exists CallRead. simpl. rewrite Hr. repeat split; auto.
  - intros H; inversion H; subst.
    left. exists CallStop. repeat split; auto.
  - destruct d; [discriminate|].
    destruct (phase r) eqn:Hph; try discriminate.
    intros H; inversion H; subst. right. repeat split; auto.
Qed.

Lemma thread_step_ok (e : RunEvent) (r r' : t) (outs outs' : list string)
    (d d' : bool) :
  thread_step e (r, outs, d) = Some (r', outs', d') ->
  thread_ok r d -> thread_ok r' d'.
Proof.
  intros Hs [Hc Hd].
  apply thread_step_cases in Hs.
  destruct Hs as [(e0 & -> & Hs & -> & Hhost)|(-> & -> & -> & -> & -> & Hph)].
  - split; [eapply sys_step_closes_on_exit; eauto|].
    intros Ht. destruct (Hd Ht) as [Hp Hcl].
    destruct (host_step_control e0 r r' outs outs' (Hhost Ht) Hs) as [E1 E2].
    rewrite E1, E2. auto.
  - split; [exact Hc|]. intros _. split; [exact Hph|].
    destruct Hc as (I1 & _ & _).
    destruct (closed r) eqn:Hcl; [|reflexivity].
    destruct I1 as [I1 _]. rewrite I1 in Hph by reflexivity. discriminate.
Qed.

Lemma thread_run_ok (es : list RunEvent) :
  forall r outs d r' outs' d',
    thread_run es (r, outs, d) = Some (r', outs', d') ->
    thread_ok r d -> thread_ok r' d'.
Proof.
  induction es as [|e es IH]; intros r outs d r' outs' d' H Hok.
  - now inversion H; subst.
  - simpl in H.
    destruct (thread_step e (r, outs, d)) as [[[r1 outs1] d1]|] eqn:Hs; [|discriminate].
    simpl in H. eapply IH; [exact H|]. eapply thread_step_ok; eauto.
Qed.

(** The worker is dead exactly when a [readline] call raised. *)
Lemma thread_run_raised (es : list RunEvent) :
  forall r outs d r' outs' d',
    thread_run es (r, outs, d) = Some (r', outs', d') ->
    d' = d || raised es.
Proof.
  induction es as [|e es IH]; intros r outs d r' outs' d' H.
  - inversion H; subst. simpl. now rewrite orb_false_r.
  - simpl in H.
    destruct (thread_step e (r, outs, d)) as [[[r1 outs1] d1]|] eqn:Hs; [|discriminate].
    simpl in H. rewrite (IH _ _ _ _ _ _ H).
    apply thread_step_cases in Hs.
    destruct Hs as [(e0 & -> & _ & -> & _)|(-> & _ & _ & -> & -> & _)];
      simpl; reflexivity.
Qed.

Lemma no_stop_keeps_flag (es : list RunEvent) :
  forall r outs d r' outs' d',
    no_stop es = true ->
    thread_run es (r, outs, d) = Some (r', outs', d') ->
    _stopSignal r' = _stopSignal r.
Proof.
  induction es as [|e es IH]; intros r outs d r' outs' d' Hn H.
  - now inversion H; subst.
  - simpl in Hn. apply andb_prop in Hn as [He Hn].
    simpl in H.
    destruct (thread_step e (r, outs, d)) as [[[r1 outs1] d1]|] eqn:Hs; [|discriminate].
    simpl in H. rewrite (IH _ _ _ _ _ _ Hn H).
    apply thread_step_cases in Hs.
    destruct Hs as [(e0 & -> & Hs & _)|(_ & -> & _)]; [|reflexivity].
    apply sys_step_control in Hs.
    destruct Hs as [(-> & _)|(_ & S1 & _)]; [discriminate | exact S1].
Qed.

Lemma started_thread_ok : thread_ok (start init) false.
Proof.
  split; [|discriminate].
  unfold closes_on_exit. simpl. repeat split; intros; congruence.
Qed.

(** X4. Along any interleaving from a freshly started reader (lines,
    end of file, sleeps, [read] and [stop] calls, and [readline]
    raising), the pipe is closed exactly when the worker has left [run]
    through its stop test, and that only happens after [stop] was
    called: a closed pipe implies a set stop flag and a worker that did
    not die.  A worker ended by an exception of [readline] leaves the
    pipe open for good; it is dead exactly when some [readline] raised.
    Otherwise, while the pipe is open, the worker is inside [run]. *)
Theorem X4_pipe_closed_only_on_exit_after_stop
    (es : list RunEvent) (r' : t) (outs' : list string) (d' : bool) :
  thread_run es (start init, [], false) = Some (r', outs', d') ->
  (closed r' = true <-> phase r' = Exited) /\
  (closed r' = true -> _stopSignal r' = true /\ d' = false) /\
  (closed r' = false -> if d' then phase r' = Reading else in_run r') /\
  (d' = true -> closed r' = false) /\
  d' = raised es.
Proof.
  intros H.
  destruct (thread_run_ok es _ _ _ _ _ _ H started_thread_ok) as [(I1 & I2 & I3) Hd].
  pose proof (thread_run_raised es _ _ _ _ _ _ H) as Hr. simpl in Hr.
  split; [exact I1|]. split; [|split; [|split; [|exact Hr]]].
  - intros Hc. split; [now apply I2|].
    destruct d'; [|reflexivity].
    destruct (Hd eq_refl) as [_ Hc']. congruence.
  - intros Hc. destruct d'; [now apply Hd|].
    unfold in_run. destruct (phase r') eqn:Hph; try tauto.
    destruct I1 as [_ I1]. rewrite I1 in Hc by reflexivity. discriminate.
  - intros Ht. now apply Hd.
Qed.

Lemma X4_pipe_closed_only_on_exit_after_stop_witness :
  (exists r' outs' d',
     thread_run [Normal (Worker (Readline line1)); Normal CallStop;
                 Normal (Worker (Readline "")); Normal (Worker Wake); Normal CallRead]
                (start init, [], false) = Some (r', outs', d') /\
     closed r' = true /\ _stopSignal r' = true /\ d' = false) /\
  (exists r' outs' d',
     thread_run [Normal (Worker (Readline line1)); ReadlineRaises; Normal CallStop;
                 Normal CallRead]
                (start init, [], false) = Some (r', outs', d') /\
     closed r' = false /\ d' = true).
Proof.
  split.
  - eexists _, _, _. split; [reflexivity|].
    destruct (X4_pipe_closed_only_on_exit_after_stop
                [Normal (Worker (Readline line1)); Normal CallStop;
                 Normal (Worker (Readline "")); Normal (Worker Wake); Normal CallRead]
                _ _ _ eq_refl) as (_ & H & _).
    split; [reflexivity|]. exact (H eq_refl).
  - eexists _, _, _. split; [reflexivity|].
    destruct (X4_pipe_closed_only_on_exit_after_stop
                [Normal (Worker (Readline line1)); ReadlineRaises; Normal CallStop;
                 Normal CallRead]
                _ _ _ eq_refl) as (_ & _ & _ & H & _).
    split; [exact (H eq_refl) | reflexivity].
Defined.

(** X5. The stop flag is one-way: once set, no worker step, no [read]
    and no further [stop] clears it. *)
Theorem X5_stop_flag_is_never_cleared
    (es : list Event) (r r' : t) (outs outs' : list string) :
  sys_run es (stop r, outs) = Some (r', outs') ->
  _stopSignal r' = true.
Proof.
  intros H.
  refine (sys_run_keeps (fun x => _stopSignal x = true) _ es _ _ _ _ H eq_refl).
  intros e x o x1 o1 Hs Hx. apply sys_step_control in Hs.
  destruct Hs as [(_ & S1 & _)|(_ & S1 & _)]; congruence.
Qed.

Lemma X5_stop_flag_is_never_cleared_witness :
  exists r' outs',
    sys_run [Worker (Readline line1); CallRead; Worker (Readline ""); Worker Wake]
            (stop (start init), []) = Some (r', outs') /\
    _stopSignal r' = true.
Proof.
  eexists. eexists. split; [reflexivity|].
  eapply (X5_stop_flag_is_never_cleared
            [Worker (Readline line1); CallRead; Worker (Readline ""); Worker Wake]
            (start init) _ []).
  reflexivity.
Defined.

(** X6. Without [stop] the worker leaves [run] only through an
    exception of [readline]: along any interleaving without a [stop]
    call (end of file and any number of sleeps included) the stop flag
    stays clear and the pipe is never closed; a started reader is still
    inside [run] as long as no [readline] raised, and once one raised
    its thread is gone, the pipe left open. *)
Theorem X6_without_stop_the_worker_never_exits
    (es : list RunEvent) (r' : t) (outs' : list string) (d' : bool) :
  no_stop es = true ->
  thread_run es (start init, [], false) = Some (r', outs', d') ->
  closed r' = false /\ _stopSignal r' = false /\ phase r' <> Exited /\
  d' = raised es /\
  (raised es = false -> in_run r').
Proof.
  intros Hn H.
  pose proof (no_stop_keeps_flag es _ _ _ _ _ _ Hn H) as Hflag. simpl in Hflag.
  destruct (thread_run_ok es _ _ _ _ _ _ H started_thread_ok) as [(I1 & I2 & I3) Hd].
  pose proof (thread_run_raised es _ _ _ _ _ _ H) as Hr. simpl in Hr.
  assert (Hc : closed r' = false).
  { destruct (closed r') eqn:Hc; [|reflexivity].
    rewrite I2 in Hflag by reflexivity. discriminate. }
  assert (Hx : phase r' <> Exited).
  { intros Hx. apply I1 in Hx. congruence. }
  repeat split; try assumption.
  intros _. unfold in_run. destruct (phase r'); tauto.
Qed.

Lemma X6_without_stop_the_worker_never_exits_witness :
  (exists r' outs' d',
     thread_run [Normal (Worker (Readline line1)); Normal (Worker (Readline ""));
                 Normal (Worker Wake); Normal (Worker (Readline ""));
                 Normal (Worker Wake); Normal CallRead]
                (start init, [], false) = Some (r', outs', d') /\
     closed r' = false /\ in_run r' /\ d' = false) /\
  (exists r' outs' d',
     thread_run [Normal (Worker (Readline line1)); Normal (Worker (Readline ""));
                 Normal (Worker Wake); ReadlineRaises; Normal CallRead]
                (start init, [], false) = Some (r', outs', d') /\
     closed r' = false /\ phase r' <> Exited /\ d' = true).
Proof.
  split.
  - eexists _, _, _. split; [reflexivity|].
    destruct (X6_without_stop_the_worker_never_exits
                [Normal (Worker (Readline line1)); Normal (Worker (Readline ""));
                 Normal (Worker Wake); Normal (Worker (Readline ""));
                 Normal (Worker Wake); Normal CallRead]
                _ _ _ eq_refl eq_refl) as (Hc & _ & _ & Hd & Hin).
    split; [exact Hc|]. split; [exact (Hin eq_refl) | exact Hd].
  - eexists _, _, _. split; [reflexivity|].
    destruct (X6_without_stop_the_worker_never_exits
                [Normal (Worker (Readline line1)); Normal (Worker (Readline ""));
                 Normal (Worker Wake); ReadlineRaises; Normal CallRead]
                _ _ _ eq_refl eq_refl) as (Hc & _ & Hx & Hd & _).
    split; [exact Hc|]. split; [exact Hx | exact Hd].
Defined.

End PipeReaderFacts.

(** ** Job *)

Section JobFacts.
Import Job.

(** Unfolding the monad and the calls on the store: what is left is the
    method as a case analysis on the state. *)
Ltac expose :=
  unfold terminate, poll, onNotify, start, onTerminate, command_set, flags_set,
    pollMillis_set, Popen_poll, Popen_terminate, Popen_new, PipeReader_new,
    PipeReader_start, PipeReader_stop, PipeReader_isAvailable, PipeReader_read,
    Timer_Start, Timer_Stop, Timer_IsRunning, CallAfter, when, receiver,
    theProcess, theReader, putProcess, putReader, log, self, assign, inWorld,
    onWorld, void, bind, ret, raise in *.

(** Case analysis on an innermost scrutinee of the goal. *)
Ltac branch :=
  match goal with
  | |- context [match ?x with _ => _ end] =>
      lazymatch x with
      | context [match _ with _ => _ end] => fail
      | _ => destruct x eqn:?
      end
  end.

(** C4, on the code: whatever the state and the arguments, what
    [terminate] returns is [None], never a boolean: the outcome of the
    kill request is not reported. *)
Theorem C4_terminate_returns_None (signal flags : Z) (s : State) :
  match fst (terminate signal flags s) with
  | Return v => v = VNone
  | Raise _ => True
  end.
Proof.
  destruct s as [j w]. expose. simpl.
  repeat (branch; simpl; try exact I; try reflexivity).
Qed.

Lemma acts_app (h1 h2 : list Action) (s : State) :
  acts (h1 ++ h2) s = acts h2 (acts h1 s).
Proof. revert s. induction h1 as [|a h1 IH]; intros s; simpl; auto. Qed.

(** [onTerminate] and the host callbacks leave the Job's fields alone,
    the timer apart. *)
Lemma dispatch_job (s : State) :
  set_pollTimer None (job (snd (dispatch s))) = set_pollTimer None (job s).
Proof.
  destruct s as [j w]. unfold dispatch. expose. simpl.
  repeat (branch; simpl; try reflexivity).
Qed.

Lemma loop_job (fuel : nat) (s : State) :
  set_pollTimer None (job (snd (loop fuel s))) = set_pollTimer None (job s).
Proof.
  revert s. induction fuel as [|n IH]; intros s; [reflexivity|].
  simpl. unfold bind, inWorld. simpl.
  destruct (callAfter (world s)); [reflexivity|].
  pose proof (dispatch_job s) as Hd.
  destruct (dispatch s) as [[u|e] s1]; simpl in *; [|exact Hd].
  rewrite IH. exact Hd.
Qed.

Lemma MainLoop_job (s : State) :
  set_pollTimer None (job (snd (MainLoop s))) = set_pollTimer None (job s).
Proof. unfold MainLoop, bind, inWorld. simpl. apply loop_job. Qed.

(** What [isRunning] looks at. *)
Lemma isRunning_fields (j j' : t) :
  _pid j' = _pid j -> _process j' = _process j -> isRunning j' = isRunning j.
Proof. unfold isRunning. now intros -> ->. Qed.

Lemma same_pid_process (j j' : t) :
  set_pollTimer None j' = set_pollTimer None j ->
  _pid j' = _pid j /\ _process j' = _process j.
Proof.
  intros H. split; [apply (f_equal _pid) in H | apply (f_equal _process) in H];
    exact H.
Qed.

Lemma poll_job (s : State) : job (snd (poll s)) = job s.
Proof.
  destruct s as [j w]. expose. simpl.
  repeat (branch; simpl; try reflexivity).
Qed.

(** [terminate] either does nothing, on a Job that is not running, or
    goes through and clears the process and the pid, or raises. *)
Lemma terminate_cases (signal flags : Z) (s : State) :
  (isRunning (job s) = false /\ terminate signal flags s = (Return VNone, s)) \/
  (isRunning (job s) = true /\
   ((exists e, fst (terminate signal flags s) = Raise e /\
               _pid (job (snd (terminate signal flags s))) = _pid (job s) /\
               _process (job (snd (terminate signal flags s))) = _process (job s)) \/
    (fst (terminate signal flags s) = Return VNone /\
     _pid (job (snd (terminate signal flags s))) = None /\
     _process (job (snd (terminate signal flags s))) = None))).
Proof.
  destruct s as [j w]. expose. simpl.
  destruct (isRunning j) eqn:Hrun; simpl; [right; split; [reflexivity|] | now left].
  repeat (branch; simpl);
    first [ left; eexists; repeat split; congruence
          | right; repeat split; congruence ].
Qed.

(** Only [start] can make a Job run. *)
Lemma act_keeps_not_running (a : Action) (s : State) :
  is_start a = false -> isRunning (job s) = false ->
  isRunning (job (snd (act a s))) = false.
Proof.
  intros Ha Hr. destruct a; try discriminate; simpl.
  - (* terminate *)
    destruct (terminate_cases signal flags s) as [[_ ->]|[Hrun _]];
      [exact Hr | congruence].
  - (* poll *)
    now rewrite poll_job.
  - unfold command_set, void, self, bind, ret, assign. simpl.
    rewrite Hr. simpl. exact Hr.
  - unfold flags_set, void, self, bind, ret, assign. simpl.
    rewrite Hr. simpl. exact Hr.
  - destruct s as [j w]. expose. simpl in *.
    repeat (branch; simpl; try assumption).
  - exact Hr.
  - exact Hr.
  - exact Hr.
  - (* the timer elapses *)
    unfold Timer_IsRunning, onNotify, self, bind, ret. simpl.
    destruct (_pollTimer (job s)); simpl; [now rewrite poll_job | exact Hr].
  - (* the event loop *)
    unfold void, bind, ret.
    pose proof (MainLoop_job s) as Hm. apply same_pid_process in Hm as [H1 H2].
    rewrite <- Hr.
    destruct (MainLoop s) as [[u|e] s1]; simpl in *; now apply isRunning_fields.
  - exact Hr.
  - exact Hr.
Qed.

Lemma acts_keep_not_running (h : list Action) :
  forall s, no_start h = true -> isRunning (job s) = false ->
            isRunning (job (acts h s)) = false.
Proof.
  induction h as [|a h IH]; intros s Hh Hr; [exact Hr|].
  simpl in Hh. apply andb_prop in Hh as [Ha Hh].
  simpl. apply IH; [exact Hh|].
  apply act_keeps_not_running; [|exact Hr].
  now destruct (is_start a).
Qed.

Lemma create_returns (a : Args) (w : World) :
  fst (new (a_command a) (a_flags a) (a_terminateCallback a) (a_inputCallback a)
           (a_errorCallback a) (a_pollMillis a) (a_env a) w) = Return tt /\
  _process (job (create a w)) = None /\
  _pid (job (create a w)) = None /\
  _command (job (create a w)) = a_command a /\
  _flags (job (create a w)) = a_flags a.
Proof.
  unfold create, new, __init__. expose. simpl.
  destruct (a_pollMillis a); simpl; repeat split.
Qed.

Lemma idle_not_running (s : State) : idle s -> isRunning (job s) = false.
Proof.
  intros (a & w & h & Hh & ->).
  apply acts_keep_not_running; [exact Hh|].
  unfold isRunning. destruct (create_returns a w) as (_ & -> & _).
  apply andb_false_r.
Qed.

Lemma terminated_not_running (s : State) : terminated s -> isRunning (job s) = false.
Proof.
  intros (s0 & signal & flags & v & h & Hret & Hh & ->).
  apply acts_keep_not_running; [exact Hh|].
  destruct (terminate_cases signal flags s0)
    as [[Hr ->]|[_ [(e & He & _)|(_ & Hpid & Hproc)]]].
  - exact Hr.
  - congruence.
  - unfold isRunning. rewrite Hproc. apply andb_false_r.
Qed.

(** C8. A Job on which [start] was never called, whatever else happened
    to it since its construction: [terminate], with any signal and
    flags, returns without raising and leaves the state as it was. *)
Theorem C8_terminate_before_start_is_noop
    (a : Args) (w : World) (h : list Action) (signal flags : Z) :
  no_start h = true ->
  terminate signal flags (acts h (create a w)) = (Return VNone, acts h (create a w)).
Proof.
  intros Hh.
  assert (Hidle : idle (acts h (create a w))) by (exists a, w, h; split; auto).
  apply idle_not_running in Hidle.
  destruct (terminate_cases signal flags (acts h (create a w)))
    as [[_ H]|[Hrun _]]; [exact H | congruence].
Qed.

Lemma C8_terminate_before_start_is_noop_witness :
  terminate 15 1 (acts [Poll; SetCommand "other"; Tick; RunLoop; Terminate 9 0] demo)
  = (Return VNone, acts [Poll; SetCommand "other"; Tick; RunLoop; Terminate 9 0] demo).
Proof.
  apply (C8_terminate_before_start_is_noop demo_args emptyWorld
           [Poll; SetCommand "other"; Tick; RunLoop; Terminate 9 0] 15 1).
  reflexivity.
Defined.

(** Both setters test [isRunning] and nothing else: while it holds the
    assignment raises [AttributeError] at once and nothing changes;
    otherwise the value is stored.  An idle Job (constructed, never
    started) and one on which [terminate] has returned are on the second
    side. *)
Lemma setters_follow_isRunning (s : State) (val : string) (fl : Z) :
  (isRunning (job s) = true ->
   command_set val s
   = (Raise (AttributeError "Cannot set property `command` if the subprocess is running!"),
      s) /\
   flags_set fl s
   = (Raise (AttributeError "Cannot set property `flags` if the subprocess is running!"),
      s)) /\
  (isRunning (job s) = false ->
   command_set val s = (Return tt, mkState (set_command val (job s)) (world s)) /\
   _command (set_command val (job s)) = val /\
   flags_set fl s = (Return tt, mkState (set_flags fl (job s)) (world s)) /\
   _flags (set_flags fl (job s)) = fl).
Proof.
  split; intros Hr; unfold command_set, flags_set, self, bind, raise, assign; simpl;
    rewrite Hr; repeat split.
Qed.

Lemma setters_accepted_when_idle_or_terminated (s : State) (val : string) (fl : Z) :
  idle s \/ terminated s ->
  command_set val s = (Return tt, mkState (set_command val (job s)) (world s)) /\
  flags_set fl s = (Return tt, mkState (set_flags fl (job s)) (world s)).
Proof.
  intros Hs.
  assert (Hr : isRunning (job s) = false).
  { destruct Hs; [now apply idle_not_running | now apply terminated_not_running]. }
  destruct (setters_follow_isRunning s val fl) as [_ H].
  destruct (H Hr) as (Hc & _ & Hf & _). now split.
Qed.

(** C6. Without a process [poll] does nothing.  With one, it first asks
    the process for its exit status ([Popen.poll], which does not wait),
    then handles the stdout reader (staged data goes to the input
    callback), then the stderr reader (to the error callback), and only
    then queues [onTerminate] if the process had exited: the operations
    are made, and the calls queued, in this order. *)
Theorem C6_poll_step_order (s : State) :
  (_process (job s) = None -> poll s = (Return VNone, s)) /\
  (forall p x out err a b,
     _process (job s) = Some p -> processes (world s) !! p = Some x ->
     _stdoutReader (job s) = Some out -> _stderrReader (job s) = Some err ->
     out <> err ->
     readers (world s) !! out = Some a -> readers (world s) !! err = Some b ->
     let ops := [OpProcPoll p]
                ++ data_ops out a (_inputCallback (job s))
                ++ data_ops err b (_errorCallback (job s))
                ++ exit_ops (fst (Popen.poll x)) in
     fst (poll s) = Return VNone /\
     trace (world (snd (poll s))) = trace (world s) ++ ops /\
     callAfter (world (snd (poll s))) = callAfter (world s) ++ calls_of ops).
Proof.
  split.
  - intros Hp. unfold poll, self, bind, ret. simpl. now rewrite Hp.
  - intros p x out err a b Hp Hx Hout Herr Hne Ha Hb.
    destruct s as [j w]. simpl in *.
    destruct j as [cmd pid fl proc pm tm env icb ecb tcb ro re].
    destruct w as [ps rs q inv tr]. simpl in *. subst proc ro re.
    destruct a as [qa ova sta pha cla], b as [qb ovb stb phb clb].
    destruct x as [xpid xrc xst xsig].
    unfold data_ops, exit_ops, Popen.poll.
    destruct qa, qb, icb, ecb, xrc, xst;
      expose;
      repeat (simpl; first [ rewrite Hx | rewrite Ha | rewrite Hb
                           | rewrite list_lookup_insert_ne by congruence ]);
      simpl; rewrite <- ?app_assoc, ?app_nil_r; repeat split.
Qed.

Lemma C6_poll_step_order_witness :
  poll demo = (Return VNone, demo) /\
  trace (world (snd (poll busy)))
  = trace (world busy)
    ++ [OpProcPoll 0%nat;
        OpReaderIsAvailable 0%nat; OpReaderRead 0%nat;
        OpCallAfter (mkCall (UserFn 1%nat) [VStr PipeReader.line1]);
        OpReaderIsAvailable 1%nat; OpReaderRead 1%nat;
        OpCallAfter (mkCall (UserFn 2%nat) [VStr PipeReader.line2]);
        OpCallAfter (mkCall BoundOnTerminate [VInt 0])].
Proof.
  destruct (C6_poll_step_order demo) as [Hnone _].
  destruct (C6_poll_step_order busy) as [_ Hsome].
  split; [apply Hnone; reflexivity|].
  destruct (Hsome 0%nat (Popen.mk 4242 None (Some 0) false) 0%nat 1%nat
              (PipeReader.mk (Some PipeReader.line1) [] false PipeReader.Reading false)
              (PipeReader.mk (Some PipeReader.line2) [] false PipeReader.Reading false))
    as (_ & Ht & _);
    [ vm_compute; reflexivity | vm_compute; reflexivity | vm_compute; reflexivity
    | vm_compute; reflexivity | discriminate
    | vm_compute; reflexivity | vm_compute; reflexivity | ].
  exact Ht.
Defined.

Lemma lookup_new {A} (l : list A) (x : A) : (l ++ [x]) !! length l = Some x.
Proof. now apply list_lookup_middle. Qed.

Lemma two_new {A} (l : list A) (x y : A) :
  ((l ++ [x]) ++ [y]) !! length l = Some x /\
  forall v, <[length l := v]> ((l ++ [x]) ++ [y]) !! S (length l) = Some y.
Proof.
  split.
  - apply lookup_app_l_Some, lookup_new.
  - intros v. rewrite list_lookup_insert_ne by lia.
    replace (S (length l)) with (length (l ++ [x]))
      by (rewrite length_app; simpl; lia).
    apply lookup_new.
Qed.

(** C10. [start] does not look at [isRunning].  Called on a running Job,
    with the operating system granting a new process, it returns the new
    pid and makes the Job point to a new process and two new readers;
    the previous process and readers stay in the store as they were
    (not signalled, not stopped), with no reference left to them, and
    the only operations made are the creation and start of the new
    objects and the (re)start of the timer. *)
Theorem C10_start_while_running_spawns_again
    (s : State) (cwd : option string) (newpid : Z)
    (p0 out0 err0 : ref) (x0 : Popen.t) (a0 b0 : PipeReader.t) :
  isRunning (job s) = true ->
  _process (job s) = Some p0 -> processes (world s) !! p0 = Some x0 ->
  _stdoutReader (job s) = Some out0 -> readers (world s) !! out0 = Some a0 ->
  _stderrReader (job s) = Some err0 -> readers (world s) !! err0 = Some b0 ->
  let p := length (processes (world s)) in
  let r := length (readers (world s)) in
  let s' := snd (start cwd (Some newpid) s) in
  fst (start cwd (Some newpid) s) = Return (VInt newpid) /\
  (_process (job s') = Some p /\ _pid (job s') = Some newpid /\
   _stdoutReader (job s') = Some r /\ _stderrReader (job s') = Some (S r)) /\
  (p <> p0 /\ r <> out0 /\ r <> err0 /\ S r <> out0 /\ S r <> err0) /\
  (processes (world s') !! p = Some (Popen.spawn newpid) /\
   readers (world s') !! r = Some (PipeReader.start PipeReader.init) /\
   readers (world s') !! S r = Some (PipeReader.start PipeReader.init)) /\
  (processes (world s') !! p0 = Some x0 /\
   readers (world s') !! out0 = Some a0 /\
   readers (world s') !! err0 = Some b0) /\
  trace (world s') =
    trace (world s)
    ++ [OpPopen (_command (job s)) cwd p; OpReaderNew r; OpReaderNew (S r);
        OpReaderStart r; OpReaderStart (S r)]
    ++ match _pollMillis (job s) with
       | Some ms => [OpTimerStart ms]
       | None => []
       end.
Proof.
  intros _ Hp Hx Hout Ha Herr Hb.
  destruct s as [j w].
  destruct j as [cmd pid fl proc pm tm env icb ecb tcb ro re].
  destruct w as [ps rs q inv tr]. simpl in *. subst proc ro re.
  pose proof (lookup_lt_Some _ _ _ Hx) as Lp.
  pose proof (lookup_lt_Some _ _ _ Ha) as La.
  pose proof (lookup_lt_Some _ _ _ Hb) as Lb.
  destruct (two_new rs PipeReader.init PipeReader.init) as [N1 N2].
  assert (E : start cwd (Some newpid)
                {| job := mk cmd pid fl (Some p0) pm tm env icb ecb tcb
                             (Some out0) (Some err0);
                   world := mkWorld ps rs q inv tr |}
              = (Return (VInt newpid), started cwd newpid
                {| job := mk cmd pid fl (Some p0) pm tm env icb ecb tcb
                             (Some out0) (Some err0);
                   world := mkWorld ps rs q inv tr |})).
  { unfold started. expose. simpl.
    rewrite lookup_new. simpl.
    rewrite length_app. simpl length. rewrite Nat.add_1_r.
    rewrite N1. simpl. rewrite N2. simpl.
    destruct pm; simpl; rewrite <- ?app_assoc; reflexivity. }
  rewrite E. unfold started. simpl.
  split; [reflexivity|]. split; [destruct pm; repeat split|].
  split; [repeat split; lia|].
  split; [|split].
  - split; [apply lookup_new|]. split.
    + rewrite list_lookup_insert_ne by lia.
      rewrite list_lookup_insert_eq by (rewrite !length_app; simpl; lia).
      reflexivity.
    + rewrite list_lookup_insert_eq
        by (rewrite length_insert, !length_app; simpl; lia).
      reflexivity.
  - split; [now apply lookup_app_l_Some|].
    split; rewrite !list_lookup_insert_ne by lia;
      now do 2 apply lookup_app_l_Some.
  - destruct pm; reflexivity.
Qed.

Lemma C10_start_while_running_spawns_again_witness :
  fst (start None (Some 4243) (acts [Start None (Some 4242)] demo)) = Return (VInt 4243) /\
  _process (job (snd (start None (Some 4243) (acts [Start None (Some 4242)] demo))))
  = Some 1%nat /\
  processes (world (snd (start None (Some 4243) (acts [Start None (Some 4242)] demo))))
  !! 0%nat = Some (Popen.spawn 4242).
Proof.
  destruct (C10_start_while_running_spawns_again
              (acts [Start None (Some 4242)] demo) None 4243 0%nat 0%nat 1%nat
              (Popen.spawn 4242)
              (PipeReader.start PipeReader.init) (PipeReader.start PipeReader.init))
    as (Hret & (Hproc & _) & _ & _ & (Hold & _) & _);
    try (vm_compute; reflexivity).
  split; [exact Hret|]. split; [exact Hproc | exact Hold].
Defined.

Lemma child_exited_state :
  exists tr, acts child_exited demo = after_exit None [] tr.
Proof. eexists. vm_compute. reflexivity. Qed.

(** After the exit, each [poll] followed by a run of the event loop runs
    the exit callback once more and leaves the Job as it was. *)
Lemma poll_after_exit (rc : option Z) (inv : list (Callback * list PyVal)) (tr : list Op) :
  rc = None \/ rc = Some 0 ->
  exists tr',
    acts [Poll; RunLoop] (after_exit rc inv tr)
    = after_exit (Some 0) (inv ++ [onExit_call]) tr'.
Proof.
  intros [-> | ->]; eexists; cbv; reflexivity.
Qed.

Lemma polls_after_exit (n : nat) :
  forall rc inv tr,
    rc = None \/ rc = Some 0 ->
    timesInvoked 7%nat (acts (polls n) (after_exit rc inv tr))
    = (timesInvoked 7%nat (after_exit rc inv tr) + n)%nat.
Proof.
  induction n as [|n IH]; intros rc inv tr Hrc.
  - simpl. lia.
  - change (polls (S n)) with ([Poll; RunLoop] ++ polls n).
    rewrite acts_app.
    destruct (poll_after_exit rc inv tr Hrc) as [tr' ->].
    rewrite IH by now right.
    unfold timesInvoked. simpl.
    rewrite filter_app, length_app. simpl. lia.
Qed.

(** C2, on the code: the child of a started Job exits and the host goes
    on polling by hand.  Every [poll] sees the exit again and queues
    [onTerminate] again: after [n] polls the exit callback has run [n]
    times, not once. *)
Theorem C2_onExit_runs_at_every_poll (n : nat) :
  timesInvoked 7%nat (acts (child_exited ++ polls n) demo) = n.
Proof.
  rewrite acts_app. destruct child_exited_state as [tr ->].
  rewrite polls_after_exit by now left. reflexivity.
Qed.

(** C5, on the code: after the exit was seen by [poll] and reported to
    the exit callback, the Job still has its process and its pid and
    still counts as running, and the next [poll] is not a no-op: it
    queues [onTerminate] once more. *)
Theorem C5_exit_seen_by_poll_keeps_process_and_pid :
  let s := acts (child_exited ++ polls 1) demo in
  invoked (world s) = [onExit_call] /\
  _process (job s) = Some 0%nat /\
  _pid (job s) = Some 4242 /\
  isRunning (job s) = true /\
  callAfter (world s) = [] /\
  callAfter (world (snd (poll s))) = [mkCall BoundOnTerminate [VInt 0]].
Proof. vm_compute. repeat split. Qed.

(** C7, on the code: a started Job whose child has exited, the exit seen
    by [poll] and reported to the exit callback.  The process is over
    and its exit status is recorded, yet assigning to [command] or to
    [flags] still raises [AttributeError], with the message that the
    subprocess is running, and the stored values stay as they were.
    After [terminate], the other way into the terminated state, both
    assignments go through. *)
Theorem C7_setters_raise_after_exit_seen_by_poll (val : string) (fl : Z) :
  let s := acts (child_exited ++ polls 1) demo in
  let t := acts [Start None (Some 4242); Terminate 15 0; RunLoop] demo in
  processes (world s) !! 0%nat = Some (Popen.mk 4242 (Some 0) (Some 0) false) /\
  invoked (world s) = [onExit_call] /\
  command_set val s
  = (Raise (AttributeError "Cannot set property `command` if the subprocess is running!"),
     s) /\
  flags_set fl s
  = (Raise (AttributeError "Cannot set property `flags` if the subprocess is running!"),
     s) /\
  command_set val t = (Return tt, mkState (set_command val (job t)) (world t)) /\
  flags_set fl t = (Return tt, mkState (set_flags fl (job t)) (world t)).
Proof.
  intros s t.
  destruct (setters_follow_isRunning s val fl) as [Hs _].
  destruct (setters_follow_isRunning t val fl) as [_ Ht].
  destruct Hs as [Hc Hf]; [vm_compute; reflexivity|].
  destruct Ht as (Hc' & _ & Hf' & _); [vm_compute; reflexivity|].
  split; [vm_compute; reflexivity|]. split; [vm_compute; reflexivity|].
  repeat split; assumption.
Qed.

(** On the other path the fields are cleared: after a [terminate] that
    went through, the Job has neither process nor pid and [poll] does
    nothing. *)
Lemma terminate_clears (signal flags : Z) (s : State) :
  isRunning (job s) = true ->
  fst (terminate signal flags s) = Return VNone ->
  _process (job (snd (terminate signal flags s))) = None /\
  _pid (job (snd (terminate signal flags s))) = None /\
  poll (snd (terminate signal flags s)) = (Return VNone, snd (terminate signal flags s)).
Proof.
  intros Hrun Hret.
  destruct (terminate_cases signal flags s)
    as [[Hr _]|[_ [(e & He & _)|(_ & Hpid & Hproc)]]]; try congruence.
  repeat split; try assumption.
  unfold poll, self, bind, ret. simpl. now rewrite Hproc.
Qed.

Lemma polls_without_process (n : nat) (s : State) :
  _process (job s) = None -> callAfter (world s) = [] -> acts (polls n) s = s.
Proof.
  intros Hp Hq.
  assert (H1 : snd (act Poll s) = s).
  { simpl. unfold poll, self, bind, ret. simpl. now rewrite Hp. }
  assert (H2 : snd (act RunLoop s) = s).
  { simpl. unfold void, MainLoop, inWorld, bind, ret. simpl. now rewrite Hq. }
  induction n as [|n IH]; [reflexivity|].
  change (acts (polls n) (snd (act RunLoop (snd (act Poll s)))) = s).
  now rewrite H1, H2.
Qed.

(** After a [terminate] that went through, the exit callback runs once,
    however often the host polls afterwards. *)
Lemma terminate_then_polls_once (n : nat) :
  timesInvoked 7%nat
    (acts ([Start None (Some 4242); Terminate 15 0; RunLoop] ++ polls n) demo) = 1%nat.
Proof.
  rewrite acts_app.
  rewrite polls_without_process by (vm_compute; reflexivity).
  vm_compute. reflexivity.
Qed.

(** *** Further properties of the Job *)

Lemma start_spawned (cwd : option string) (newpid : Z) (s : State) :
  start cwd (Some newpid) s = (Return (VInt newpid), started cwd newpid s).
Proof.
  destruct s as [j w].
  destruct j as [cmd pid fl proc pm tm env icb ecb tcb ro re].
  destruct w as [ps rs q inv tr].
  destruct (two_new rs PipeReader.init PipeReader.init) as [N1 N2].
  unfold started. expose. simpl.
  rewrite lookup_new. simpl.
  rewrite length_app. simpl length. rewrite Nat.add_1_r.
  rewrite N1. simpl. rewrite N2. simpl.
  destruct pm; simpl; rewrite <- ?app_assoc; reflexivity.
Qed.

(** X7. [start] raises only when the process cannot be created, and then
    nothing has changed.  Otherwise, in any state (idle, terminated or
    still running), it returns the new pid; the Job then counts as
    running unless that pid is 0, and the timer is armed with the
    stored interval, or left as it was when there is none. *)
Theorem X7_start_raises_only_when_spawn_fails
    (cwd : option string) (spawn : option Z) (s : State) :
  match spawn with
  | None => start cwd None s = (Raise OSError, s)
  | Some newpid =>
      fst (start cwd (Some newpid) s) = Return (VInt newpid) /\
      _pid (job (snd (start cwd (Some newpid) s))) = Some newpid /\
      isRunning (job (snd (start cwd (Some newpid) s))) = bool_decide (newpid <> 0) /\
      _pollTimer (job (snd (start cwd (Some newpid) s)))
      = match _pollMillis (job s) with
        | Some ms => Some ms
        | None => _pollTimer (job s)
        end
  end.
Proof.
  destruct spawn as [newpid|].
  - rewrite start_spawned. unfold started, isRunning. simpl.
    destruct (_pollMillis (job s)); simpl; repeat split;
      rewrite andb_true_r;
      destruct (decide (newpid = 0)) as [->|Hne];
      try reflexivity;
      rewrite bool_decide_eq_false_2 by congruence;
      rewrite bool_decide_eq_true_2 by congruence; reflexivity.
  - unfold start, self, bind, raise. reflexivity.
Qed.

(** X8. [terminate] is idempotent: once it has returned, calling it
    again, with any arguments, does nothing. *)
Theorem X8_terminate_twice_is_terminate_once
    (signal flags signal' flags' : Z) (s : State) (v : PyVal) :
  fst (terminate signal flags s) = Return v ->
  terminate signal' flags' (snd (terminate signal flags s))
  = (Return VNone, snd (terminate signal flags s)).
Proof.
  intros Hret.
  assert (Ht : terminated (snd (terminate signal flags s))).
  { exists s, signal, flags, v, []. repeat split. exact Hret. }
  apply terminated_not_running in Ht.
  destruct (terminate_cases signal' flags' (snd (terminate signal flags s)))
    as [[_ H]|[Hrun _]]; [exact H | congruence].
Qed.

Lemma X8_terminate_twice_is_terminate_once_witness :
  terminate 9 1 (snd (terminate 15 0 (acts [Start None (Some 4242)] demo)))
  = (Return VNone, snd (terminate 15 0 (acts [Start None (Some 4242)] demo))).
Proof.
  apply (X8_terminate_twice_is_terminate_once 15 0 9 1
           (acts [Start None (Some 4242)] demo) VNone).
  vm_compute. reflexivity.
Defined.

(** X9. No method runs a host callback itself: whatever the host calls
    ([start], [terminate], [poll], a setter), whatever the timer or the
    environment does, the callbacks run so far stay the same.  Only the
    event loop runs them, from the [wx.CallAfter] queue. *)
Theorem X9_callbacks_run_only_from_the_event_loop (a : Action) (s : State) :
  is_loop a = false ->
  invoked (world (snd (act a s))) = invoked (world s).
Proof.
  intros Ha. destruct a; try discriminate; simpl.
  - destruct spawn as [newpid|].
    + now rewrite start_spawned.
    + reflexivity.
  - destruct s as [j w]. expose. simpl.
    repeat (branch; simpl; try reflexivity).
  - destruct s as [j w]. expose. simpl.
    repeat (branch; simpl; try reflexivity).
  - destruct s as [j w]. expose. simpl.
    repeat (branch; simpl; try reflexivity).
  - destruct s as [j w]. expose. simpl.
    repeat (branch; simpl; try reflexivity).
  - destruct s as [j w]. expose. simpl.
    repeat (branch; simpl; try reflexivity).
  - reflexivity.
  - reflexivity.
  - reflexivity.
  - destruct s as [j w]. unfold onNotify. expose. simpl.
    repeat (branch; simpl; try reflexivity).
  - reflexivity.
  - reflexivity.
Qed.

Lemma X9_callbacks_run_only_from_the_event_loop_witness :
  invoked (world (snd (act Poll busy))) = invoked (world busy) /\
  callAfter (world (snd (act Poll busy)))
  = [mkCall (UserFn 1%nat) [VStr PipeReader.line1];
     mkCall (UserFn 2%nat) [VStr PipeReader.line2];
     mkCall BoundOnTerminate [VInt 0]].
Proof.
  split.
  - apply (X9_callbacks_run_only_from_the_event_loop Poll busy). reflexivity.
  - vm_compute. reflexivity.
Defined.

(** **** Well-formed states *)

Ltac queue_grows :=
  rewrite <- ?app_assoc;
  match goal with
  | |- exists l, ?q = ?q ++ l /\ _ => exists []; split; [symmetry; apply app_nil_r|]
  | |- exists l, ?q ++ ?l0 = ?q ++ l /\ _ => exists l0; split; [reflexivity|]
  end;
  repeat match goal with
         | |- Forall _ [] => apply List.Forall_nil
         | |- Forall _ (_ :: _) => apply List.Forall_cons
         | |- Forall _ (_ ++ _) => apply Forall_app_2
         end;
  unfold call_ok; simpl; intros; first [ discriminate | eauto ].

(** [poll] changes neither the size of the store nor what was pending;
    what it adds to the queue is well formed. *)
Lemma poll_store (s : State) :
  length (processes (world (snd (poll s)))) = length (processes (world s)) /\
  length (readers (world (snd (poll s)))) = length (readers (world s)) /\
  exists l, callAfter (world (snd (poll s))) = callAfter (world s) ++ l /\
            Forall call_ok l.
Proof.
  destruct s as [j w]. expose. simpl.
  repeat (branch; simpl);
    rewrite ?length_insert; (split; [reflexivity|]); (split; [reflexivity|]);
    queue_grows.
Qed.

Lemma terminate_store (signal flags : Z) (s : State) :
  length (processes (world (snd (terminate signal flags s))))
  = length (processes (world s)) /\
  length (readers (world (snd (terminate signal flags s))))
  = length (readers (world s)) /\
  exists l, callAfter (world (snd (terminate signal flags s)))
            = callAfter (world s) ++ l /\
            Forall call_ok l.
Proof.
  destruct s as [j w]. expose. simpl.
  repeat (branch; simpl);
    rewrite ?length_insert; (split; [reflexivity|]); (split; [reflexivity|]);
    queue_grows.
Qed.

(** A lookup that fails although the reference is within the store. *)
Ltac dangling :=
  first
    [ congruence
    | simplify_eq;
      match goal with
      | H : _ !! _ = None |- _ =>
          apply lookup_ge_None_1 in H; rewrite ?length_insert in H; lia
      end ].


Lemma terminate_returns (signal flags : Z) (s : State) :
  refs_ok s -> fst (terminate signal flags s) = Return VNone.
Proof.
  destruct s as [j w]. unfold refs_ok. simpl. intros Hr.
  expose. simpl.
  destruct (isRunning j) eqn:Hrun; [|reflexivity]. simpl.
  destruct (_process j) as [p|] eqn:Hp;
    [|unfold isRunning in Hrun; rewrite Hp, andb_false_r in Hrun; discriminate].
  destruct (Hr p eq_refl) as (Lp & out & err & Ho & He & Lo & Le).
  simpl.
  repeat (branch; simpl; try reflexivity); dangling.
Qed.

Lemma refs_ok_same (s s' : State) :
  _process (job s') = _process (job s) ->
  _stdoutReader (job s') = _stdoutReader (job s) ->
  _stderrReader (job s') = _stderrReader (job s) ->
  length (processes (world s')) = length (processes (world s)) ->
  length (readers (world s')) = length (readers (world s)) ->
  refs_ok s -> refs_ok s'.
Proof.
  unfold refs_ok. intros E1 E2 E3 E4 E5 Hr p Hp.
  rewrite E1 in Hp. destruct (Hr p Hp) as (Lp & out & err & Ho & He & Lo & Le).
  split; [lia|]. exists out, err. rewrite E2, E3, E5. auto.
Qed.

Lemma poll_wf (s : State) : wf s -> wf (snd (poll s)).
Proof.
  intros [Hr Hq]. destruct (poll_store s) as (L1 & L2 & l & Hl & Hok).
  split.
  - apply (refs_ok_same s); rewrite ?poll_job; auto.
  - rewrite Hl. now apply Forall_app_2.
Qed.

Lemma terminate_wf (signal flags : Z) (s : State) :
  wf s -> wf (snd (terminate signal flags s)).
Proof.
  intros [Hr Hq].
  destruct (terminate_store signal flags s) as (L1 & L2 & l & Hl & Hok).
  split.
  - destruct (terminate_cases signal flags s)
      as [[_ ->]|[_ [(e & He & _)|(_ & _ & Hproc)]]].
    + exact Hr.
    + rewrite (terminate_returns signal flags s Hr) in He. discriminate.
    + intros p Hp. congruence.
  - rewrite Hl. now apply Forall_app_2.
Qed.

Lemma started_wf (cwd : option string) (newpid : Z) (s : State) :
  Forall call_ok (callAfter (world s)) -> wf (started cwd newpid s).
Proof.
  intros Hq. split; [|exact Hq].
  unfold refs_ok, started. simpl.
  intros p Hp.
  assert (Hp' : p = length (processes (world s))).
  { destruct (_pollMillis (job s)); simpl in Hp; congruence. }
  subst p. split; [rewrite length_app; simpl; lia|].
  exists (length (readers (world s))), (S (length (readers (world s)))).
  rewrite !length_insert, !length_app. simpl.
  destruct (_pollMillis (job s)); simpl; repeat split; lia.
Qed.

Lemma dispatch_wf (s : State) :
  wf s -> fst (dispatch s) = Return tt /\ wf (snd (dispatch s)).
Proof.
  destruct s as [j w]. destruct w as [ps rs q inv tr].
  destruct j as [cmd pid fl proc pm tm env icb ecb tcb ro re].
  unfold wf, refs_ok. simpl. intros [Hr Hq].
  unfold dispatch. expose. simpl.
  destruct q as [|c q']; [split; [reflexivity | split; assumption]|].
  inversion Hq as [|c0 q0 Hc Hq']; subst.
  destruct c as [f a]. destruct f as [f|]; simpl.
  - split; [reflexivity|]. split; assumption.
  - destruct (Hc eq_refl) as [v Hv]. simpl in Hv. subst a. simpl.
    destruct tm, tcb; simpl;
      (split; [reflexivity|]); (split; [exact Hr|]);
      try assumption;
      apply Forall_app_2; try assumption;
      (apply List.Forall_cons; [|apply List.Forall_nil]);
      unfold call_ok; simpl; intros; discriminate.
Qed.

Lemma loop_wf (fuel : nat) :
  forall s, wf s -> fst (loop fuel s) = Return tt /\ wf (snd (loop fuel s)).
Proof.
  induction fuel as [|n IH]; intros s Hw; [split; [reflexivity | exact Hw]|].
  simpl. unfold bind, inWorld. simpl.
  destruct (callAfter (world s)) eqn:Hq; [split; [reflexivity | exact Hw]|].
  destruct (dispatch_wf s Hw) as [Hd Hw'].
  destruct (dispatch s) as [[u|e] s1]; simpl in *; [|discriminate].
  apply IH. exact Hw'.
Qed.

Lemma MainLoop_wf (s : State) :
  wf s -> fst (MainLoop s) = Return tt /\ wf (snd (MainLoop s)).
Proof. intros Hw. unfold MainLoop, bind, inWorld. simpl. now apply loop_wf. Qed.

Lemma snd_void {A} (m : M A) (s : State) : snd (void m s) = snd (m s).
Proof. unfold void, bind, ret. now destruct (m s) as [[a|e] s1]. Qed.

(** Every event keeps a well-formed state well formed. *)
Lemma act_wf (a : Action) (s : State) : wf s -> wf (snd (act a s)).
Proof.
  intros Hw. destruct a; simpl.
  - destruct spawn as [newpid|]; [|exact Hw].
    rewrite start_spawned. apply started_wf, Hw.
  - now apply terminate_wf.
  - now apply poll_wf.
  - destruct s as [j w]. unfold void, command_set, self, bind, ret, raise, assign.
    simpl. destruct (isRunning j); exact Hw.
  - destruct s as [j w]. unfold void, flags_set, self, bind, ret, raise, assign.
    simpl. destruct (isRunning j); exact Hw.
  - destruct s as [j w]. destruct j as [cmd pid fl proc pm tm env icb ecb tcb ro re].
    expose. simpl. destruct tm, val; exact Hw.
  - exact Hw.
  - exact Hw.
  - exact Hw.
  - unfold Timer_IsRunning, onNotify, self, bind, ret. simpl.
    destruct (_pollTimer (job s)); [now apply poll_wf | exact Hw].
  - rewrite snd_void. now apply MainLoop_wf.
  - destruct Hw as [Hr Hq]. split; [|exact Hq].
    apply (refs_ok_same s); simpl; rewrite ?length_alter; auto.
  - destruct Hw as [Hr Hq]. split; [|exact Hq].
    apply (refs_ok_same s); simpl; rewrite ?length_alter; auto.
Qed.

Lemma acts_wf (h : list Action) : forall s, wf s -> wf (acts h s).
Proof.
  induction h as [|a h IH]; intros s Hw; [exact Hw|].
  simpl. apply IH, act_wf, Hw.
Qed.




(** On [int] and [None] the two setters are one. *)
Lemma pollMillis_set_any_documented (val : option Z) (s : State) :
  pollMillis_set_any (Val (of_optZ val)) s = pollMillis_set val s.
Proof. destruct val; reflexivity. Qed.







Lemma dispatch_timer (s : State) :
  _pollTimer (job s) = None -> _pollTimer (job (snd (dispatch s))) = None.
Proof.
  destruct s as [j w]. destruct j as [cmd pid fl proc pm tm env icb ecb tcb ro re].
  simpl. intros ->. unfold dispatch. expose. simpl.
  repeat (branch; simpl; try reflexivity).
Qed.

Lemma loop_timer (fuel : nat) :
  forall s, _pollTimer (job s) = None -> _pollTimer (job (snd (loop fuel s))) = None.
Proof.
  induction fuel as [|n IH]; intros s Ht; [exact Ht|].
  simpl. unfold bind, inWorld. simpl.
  destruct (callAfter (world s)); [exact Ht|].
  pose proof (dispatch_timer s Ht) as Hd.
  destruct (dispatch s) as [[u|e] s1]; simpl in *; [now apply IH | exact Hd].
Qed.

Lemma act_keeps_timer_off (a : Action) (s : State) :
  is_start a = false -> _pollTimer (job s) = None ->
  _pollTimer (job (snd (act a s))) = None.
Proof.
  intros Ha Ht. destruct a; try discriminate; simpl.
  - destruct s as [j w]. expose. simpl in *.
    repeat (branch; simpl; try reflexivity; try assumption).
  - now rewrite poll_job.
  - destruct s as [j w]. expose. simpl in *.
    repeat (branch; simpl; try assumption).
  - destruct s as [j w]. expose. simpl in *.
    repeat (branch; simpl; try assumption).
  - destruct s as [j w]. destruct j as [cmd pid fl proc pm tm env icb ecb tcb ro re].
    simpl in Ht. subst tm. reflexivity.
  - exact Ht.
  - exact Ht.
  - exact Ht.
  - unfold Timer_IsRunning, self, bind, ret. simpl. now rewrite Ht.
  - rewrite snd_void. unfold MainLoop, bind, inWorld. simpl. now apply loop_timer.
  - exact Ht.
  - exact Ht.
Qed.

(** X11. Only [start] arms the timer.  Along any history without a
    [start] call a timer that is off stays off: assigning [pollMillis]
    stores the interval without arming anything, so a Job started
    without an interval has to be polled by the host. *)
Theorem X11_only_start_arms_the_timer (h : list Action) (s : State) :
  no_start h = true -> _pollTimer (job s) = None ->
  _pollTimer (job (acts h s)) = None.
Proof.
  revert s. induction h as [|a h IH]; intros s Hh Ht; [exact Ht|].
  simpl in Hh. apply andb_prop in Hh as [Ha Hh].
  simpl. apply IH; [exact Hh|].
  apply act_keeps_timer_off; [|exact Ht]. now destruct (is_start a).
Qed.

Lemma X11_only_start_arms_the_timer_witness :
  _pollTimer (job (acts [SetPollMillis (Some 120); Tick; Poll; RunLoop; SetPollMillis None]
                        (acts [Start None (Some 4242)] demo))) = None.
Proof.
  apply (X11_only_start_arms_the_timer
           [SetPollMillis (Some 120); Tick; Poll; RunLoop; SetPollMillis None]
           (acts [Start None (Some 4242)] demo));
    reflexivity.
Defined.

(** What a Job that was never started leaves alone. *)
Lemma act_before_start (a : Action) (s : State) :
  is_start a = false ->
  _process (job s) = None -> _pollTimer (job s) = None ->
  callAfter (world s) = [] ->
  _process (job (snd (act a s))) = None /\
  _pollTimer (job (snd (act a s))) = None /\
  callAfter (world (snd (act a s))) = [] /\
  trace (world (snd (act a s))) = trace (world s) /\
  invoked (world (snd (act a s))) = invoked (world s).
Proof.
  intros Ha Hp Ht Hq.
  destruct s as [j w]. destruct j as [cmd pid fl proc pm tm env icb ecb tcb ro re].
  destruct w as [ps rs q inv tr]. simpl in *. subst proc tm q.
  destruct a; try discriminate; simpl.
  - unfold terminate, self, bind, ret, isRunning. simpl.
    rewrite andb_false_r. simpl. repeat split.
  - repeat split.
  - unfold void, command_set, self, bind, ret, assign, isRunning. simpl.
    rewrite andb_false_r. simpl. repeat split.
  - unfold void, flags_set, self, bind, ret, assign, isRunning. simpl.
    rewrite andb_false_r. simpl. repeat split.
  - repeat split.
  - repeat split.
  - repeat split.
  - repeat split.
  - repeat split.
  - repeat split.
  - repeat split.
  - repeat split.
Qed.

(** X12. Before [start] a Job does nothing to the world.  From its
    construction on, along any history without a [start] call
    ([poll], [terminate], timer ticks, any setter, event-loop runs):
    no operation is made on any process, reader or timer, nothing is
    queued with [wx.CallAfter], no callback runs, and the timer is not
    armed even when a polling interval is configured. *)
Theorem X12_before_start_nothing_happens (a : Args) (w : World) (h : list Action) :
  no_start h = true -> callAfter w = [] ->
  trace (world (acts h (create a w))) = trace w /\
  callAfter (world (acts h (create a w))) = [] /\
  invoked (world (acts h (create a w))) = invoked w /\
  _pollTimer (job (acts h (create a w))) = None /\
  _process (job (acts h (create a w))) = None.
Proof.
  intros Hh Hq.
  assert (H0 : _process (job (create a w)) = None /\
               _pollTimer (job (create a w)) = None /\
               callAfter (world (create a w)) = [] /\
               trace (world (create a w)) = trace w /\
               invoked (world (create a w)) = invoked w).
  { unfold create, new, __init__. expose. simpl.
    destruct (a_pollMillis a); simpl; repeat split; assumption. }
  revert H0. generalize (create a w) as s. revert Hh.
  induction h as [|x h IH]; intros Hh s (P1 & P2 & P3 & P4 & P5).
  - simpl. repeat split; assumption.
  - simpl in Hh. apply andb_prop in Hh as [Hx Hh].
    assert (Hx' : is_start x = false) by now destruct (is_start x).
    destruct (act_before_start x s Hx' P1 P2 P3) as (Q1 & Q2 & Q3 & Q4 & Q5).
    simpl. apply IH; [exact Hh|].
    repeat split; congruence.
Qed.

Lemma X12_before_start_nothing_happens_witness :
  trace (world (acts [SetPollMillis (Some 50); Tick; Poll; Terminate 15 0; RunLoop]
                     (create (mkArgs "child" 0 (Some 7%nat) None None (Some 120) None)
                             emptyWorld))) = [] /\
  callAfter (world (acts [SetPollMillis (Some 50); Tick; Poll; Terminate 15 0; RunLoop]
                     (create (mkArgs "child" 0 (Some 7%nat) None None (Some 120) None)
                             emptyWorld))) = [] /\
  invoked (world (acts [SetPollMillis (Some 50); Tick; Poll; Terminate 15 0; RunLoop]
                     (create (mkArgs "child" 0 (Some 7%nat) None None (Some 120) None)
                             emptyWorld))) = [] /\
  _pollTimer (job (acts [SetPollMillis (Some 50); Tick; Poll; Terminate 15 0; RunLoop]
                     (create (mkArgs "child" 0 (Some 7%nat) None None (Some 120) None)
                             emptyWorld))) = None /\
  _process (job (acts [SetPollMillis (Some 50); Tick; Poll; Terminate 15 0; RunLoop]
                     (create (mkArgs "child" 0 (Some 7%nat) None None (Some 120) None)
                             emptyWorld))) = None.
Proof.
  apply (X12_before_start_nothing_happens
           (mkArgs "child" 0 (Some 7%nat) None None (Some 120) None) emptyWorld
           [SetPollMillis (Some 50); Tick; Poll; Terminate 15 0; RunLoop]);
    reflexivity.
Defined.




Lemma ticks_idle (n : nat) (s : State) :
  _pollTimer (job s) = None -> callAfter (world s) = [] -> acts (ticks n) s = s.
Proof.
  intros Ht Hq.
  assert (H1 : snd (act Tick s) = s).
  { simpl. unfold Timer_IsRunning, self, bind, ret. simpl. now rewrite Ht. }
  assert (H2 : snd (act RunLoop s) = s).
  { simpl. unfold void, MainLoop, inWorld, bind, ret. simpl. now rewrite Hq. }
  induction n as [|n IH]; [reflexivity|].
  change (acts (ticks n) (snd (act RunLoop (snd (act Tick s)))) = s).
  now rewrite H1, H2.
Qed.

Lemma poll_explicit (s : State) (p out err : ref) (x : Popen.t) (a b : PipeReader.t) :
  _process (job s) = Some p -> processes (world s) !! p = Some x ->
  _stdoutReader (job s) = Some out -> _stderrReader (job s) = Some err ->
  out <> err ->
  readers (world s) !! out = Some a -> readers (world s) !! err = Some b ->
  poll s = (Return VNone, polled s p out err x a b).
Proof.
  intros Hp Hx Hout Herr Hne Ha Hb.
  destruct s as [j w].
  destruct j as [cmd pid fl proc pm tm env icb ecb tcb ro re].
  destruct w as [ps rs q inv tr]. simpl in *. subst proc ro re.
  assert (Hb' : forall v, <[out := v]> rs !! err = Some b)
    by (intros v; now rewrite list_lookup_insert_ne).
  destruct a as [qa ova sta pha cla], b as [qb ovb stb phb clb].
  destruct x as [xpid xrc xst xsig].
  unfold polled, data_ops, exit_ops, Popen.poll, PipeReader.read.
  destruct qa, qb, icb, ecb, xrc, xst;
    expose;
    repeat (simpl; first [ rewrite Hx | rewrite Ha | rewrite Hb
                         | rewrite list_lookup_insert_ne by congruence ]);
    simpl; rewrite <- ?app_assoc, ?app_nil_r;
    rewrite ?(list_insert_id _ _ _ (Hb' _)), ?(list_insert_id _ _ _ Ha);
    reflexivity.
Qed.

(** X14. Timer-driven polling reports the exit once.  The timer is
    running, nothing is pending, and the process has exited with code
    [c].  After the next tick and a run of the event loop the staged
    data has gone to the data callbacks, then the exit callback has run
    once with the pid and [c]; [onTerminate] has stopped the timer, so
    any number of further ticks and event-loop runs change nothing. *)
Theorem X14_timer_driven_exit_is_reported_once
    (s : State) (ms c : Z) (p out err : ref) (x : Popen.t)
    (a b : PipeReader.t) (f : Callback) (n : nat) :
  _pollTimer (job s) = Some ms ->
  _process (job s) = Some p -> processes (world s) !! p = Some x ->
  fst (Popen.poll x) = Some c ->
  _stdoutReader (job s) = Some out -> _stderrReader (job s) = Some err ->
  out <> err ->
  readers (world s) !! out = Some a -> readers (world s) !! err = Some b ->
  callAfter (world s) = [] ->
  _terminateCallback (job s) = Some f ->
  let s1 := acts [Tick; RunLoop] s in
  invoked (world s1)
  = invoked (world s)
    ++ flat_map ran (calls_of (data_ops out a (_inputCallback (job s))
                               ++ data_ops err b (_errorCallback (job s))))
    ++ [(f, [of_optZ (_pid (job s)); VInt c])] /\
  _pollTimer (job s1) = None /\
  callAfter (world s1) = [] /\
  acts (ticks n) s1 = s1.
Proof.
  intros Ht Hp Hx Hc Hout Herr Hne Ha Hb Hq Hf. intros s1.
  assert (E : s1 = snd (void MainLoop (polled s p out err x a b))).
  { unfold s1. simpl. unfold Timer_IsRunning, onNotify, self, bind, ret. simpl.
    rewrite Ht. now rewrite (poll_explicit s p out err x a b). }
  assert (H : invoked (world s1)
              = invoked (world s)
                ++ flat_map ran (calls_of (data_ops out a (_inputCallback (job s))
                                           ++ data_ops err b (_errorCallback (job s))))
                ++ [(f, [of_optZ (_pid (job s)); VInt c])] /\
              _pollTimer (job s1) = None /\
              callAfter (world s1) = []).
  { rewrite E. clear E s1 Hx Ha Hb Hne.
    destruct s as [j w].
    destruct j as [cmd pid fl proc pm tm env icb ecb tcb ro re].
    destruct w as [ps rs q inv tr]. simpl in *. subst tm proc ro re q tcb.
    destruct a as [qa ova sta pha cla], b as [qb ovb stb phb clb].
    unfold polled, data_ops, exit_ops. simpl. rewrite Hc.
    destruct qa, qb, icb, ecb;
      unfold void, MainLoop, dispatch; expose; simpl;
      rewrite <- ?app_assoc; repeat split. }
  destruct H as (H1 & H2 & H3).
  split; [exact H1|]. split; [exact H2|]. split; [exact H3|].
  now apply ticks_idle.
Qed.

Lemma X14_timer_driven_exit_is_reported_once_witness :
  invoked (world (acts [Tick; RunLoop]
     (acts [SetPollMillis (Some 120); Start None (Some 4242);
            WorkerStep 0%nat (PipeReader.Readline PipeReader.line1);
            ChildExit 0%nat 3] demo)))
  = [(1%nat, [VStr PipeReader.line1]); (7%nat, [VInt 4242; VInt 3])] /\
  acts (ticks 5) (acts [Tick; RunLoop]
     (acts [SetPollMillis (Some 120); Start None (Some 4242);
            WorkerStep 0%nat (PipeReader.Readline PipeReader.line1);
            ChildExit 0%nat 3] demo))
  = acts [Tick; RunLoop]
     (acts [SetPollMillis (Some 120); Start None (Some 4242);
            WorkerStep 0%nat (PipeReader.Readline PipeReader.line1);
            ChildExit 0%nat 3] demo).
Proof.
  destruct (X14_timer_driven_exit_is_reported_once
              (acts [SetPollMillis (Some 120); Start None (Some 4242);
                     WorkerStep 0%nat (PipeReader.Readline PipeReader.line1);
                     ChildExit 0%nat 3] demo)
              120 3 0%nat 0%nat 1%nat
              (Popen.mk 4242 None (Some 3) false)
              (PipeReader.mk (Some PipeReader.line1) [] false PipeReader.Reading false)
              (PipeReader.start PipeReader.init) 7%nat 5)
    as (Hinv & _ & _ & Hstable);
    [ first [ vm_compute; reflexivity | discriminate ] .. | ].
  split.
  - vm_compute in Hinv. vm_compute. exact Hinv.
  - vm_compute in Hstable. vm_compute. exact Hstable.
Defined.

(** X15. Staged output is consumed whether or not a callback is there
    to take it.  With no input callback set, [poll] still reads the
    chunk staged by the stdout reader: the slot is emptied and the chunk
    is queued for nobody, so it is lost. *)
Theorem X15_poll_without_input_callback_discards_the_chunk
    (s : State) (p out err : ref) (x : Popen.t) (a b : PipeReader.t) (text : string) :
  _process (job s) = Some p -> processes (world s) !! p = Some x ->
  _stdoutReader (job s) = Some out -> _stderrReader (job s) = Some err ->
  out <> err ->
  readers (world s) !! out = Some a -> readers (world s) !! err = Some b ->
  _inputCallback (job s) = None ->
  PipeReader._queue a = Some text ->
  readers (world (snd (poll s))) !! out = Some (PipeReader.set_queue None a) /\
  callAfter (world (snd (poll s)))
  = callAfter (world s)
    ++ calls_of (data_ops err b (_errorCallback (job s))
                 ++ exit_ops (fst (Popen.poll x))) /\
  invoked (world (snd (poll s))) = invoked (world s).
Proof.
  intros Hp Hx Hout Herr Hne Ha Hb Hcb Hq.
  rewrite (poll_explicit s p out err x a b) by assumption.
  pose proof (lookup_lt_Some _ _ _ Ha) as La.
  destruct a as [qa ova sta pha cla]. simpl in Hq. subst qa.
  unfold polled, data_ops. simpl. rewrite Hcb.
  split; [|split; reflexivity].
  rewrite list_lookup_insert_ne by congruence.
  rewrite list_lookup_insert_eq by assumption.
  reflexivity.
Qed.

Lemma X15_poll_without_input_callback_discards_the_chunk_witness :
  readers (world (snd (poll (snd (act (SetInputCallback None) busy))))) !! 0%nat
  = Some (PipeReader.mk None [] false PipeReader.Reading false) /\
  callAfter (world (snd (poll (snd (act (SetInputCallback None) busy)))))
  = [mkCall (UserFn 2%nat) [VStr PipeReader.line2]; mkCall BoundOnTerminate [VInt 0]].
Proof.
  destruct (X15_poll_without_input_callback_discards_the_chunk
              (snd (act (SetInputCallback None) busy)) 0%nat 0%nat 1%nat
              (Popen.mk 4242 None (Some 0) false)
              (PipeReader.mk (Some PipeReader.line1) [] false PipeReader.Reading false)
              (PipeReader.mk (Some PipeReader.line2) [] false PipeReader.Reading false)
              PipeReader.line1)
    as (Hr & Hq & _);
    [ first [ vm_compute; reflexivity | discriminate ] .. | ].
  split.
  - vm_compute in Hr. vm_compute. exact Hr.
  - vm_compute in Hq. vm_compute. exact Hq.
Defined.

Lemma poll_frame (s : State) :
  job (snd (poll s)) = job s /\
  (forall q, _process (job s) <> Some q ->
             processes (world (snd (poll s))) !! q = processes (world s) !! q) /\
  (forall r, _stdoutReader (job s) <> Some r -> _stderrReader (job s) <> Some r ->
             readers (world (snd (poll s))) !! r = readers (world s) !! r).
Proof.
  split; [apply poll_job|].
  destruct s as [j w]. expose. simpl.
  split.
  - intros q Hq.
    repeat (branch; simpl; try reflexivity);
      simplify_eq; rewrite ?list_lookup_insert_ne by congruence; reflexivity.
  - intros r Ho He.
    repeat (branch; simpl; try reflexivity);
      simplify_eq; rewrite ?list_lookup_insert_ne by congruence; reflexivity.
Qed.

(** X16. [poll] touches only what the Job points to: it changes no field
    of the Job; every process other than the Job's and every reader
    other than its two readers is left as it is, whether [poll] returns
    or raises.  Readers and processes orphaned by a second [start] are
    therefore never polled or drained again. *)
Theorem X16_poll_touches_only_the_jobs_objects (s : State) :
  job (snd (poll s)) = job s /\
  (forall q, _process (job s) <> Some q ->
             processes (world (snd (poll s))) !! q = processes (world s) !! q) /\
  (forall r, _stdoutReader (job s) <> Some r -> _stderrReader (job s) <> Some r ->
             readers (world (snd (poll s))) !! r = readers (world s) !! r).
Proof. apply poll_frame. Qed.

Lemma X16_poll_touches_only_the_jobs_objects_witness :
  readers (world (snd (poll (snd (act (Start None (Some 4243)) busy))))) !! 0%nat
  = readers (world (snd (act (Start None (Some 4243)) busy))) !! 0%nat /\
  readers (world (snd (act (Start None (Some 4243)) busy))) !! 0%nat
  = Some (PipeReader.mk (Some PipeReader.line1) [] false PipeReader.Reading false).
Proof.
  split; [|vm_compute; reflexivity].
  destruct (X16_poll_touches_only_the_jobs_objects
              (snd (act (Start None (Some 4243)) busy))) as (_ & _ & Hr).
  apply Hr; vm_compute; discriminate.
Defined.

(** **** Stdout data on its way to the host *)

(** A turn of the event loop moves the head of the queue to the
    callbacks run; it leaves the store alone and the texts in order. *)
Lemma dispatch_texts (s : State) :
  processes (world (snd (dispatch s))) = processes (world s) /\
  readers (world (snd (dispatch s))) = readers (world s) /\
  texts (invoked (world (snd (dispatch s))))
  ++ queued_texts (callAfter (world (snd (dispatch s))))
  = texts (invoked (world s)) ++ queued_texts (callAfter (world s)).
Proof.
  destruct s as [j w]. destruct w as [ps rs q inv tr].
  destruct j as [cmd pid fl proc pm tm env icb ecb tcb ro re].
  unfold dispatch. expose. simpl.
  destruct q as [|c q']; [repeat split|].
  destruct c as [f a]. destruct f as [f|]; simpl.
  - repeat split. unfold texts, queued_texts.
    rewrite flat_map_app. simpl. rewrite app_nil_r, <- app_assoc. reflexivity.
  - destruct a as [|v [|v' a']]; simpl; try (repeat split; fail).
    destruct tm, tcb; simpl; repeat split;
      unfold queued_texts; rewrite ?flat_map_app; simpl;
      destruct pid; simpl; rewrite ?app_nil_r; reflexivity.
Qed.

Lemma loop_texts (fuel : nat) :
  forall s,
    processes (world (snd (loop fuel s))) = processes (world s) /\
    readers (world (snd (loop fuel s))) = readers (world s) /\
    texts (invoked (world (snd (loop fuel s))))
    ++ queued_texts (callAfter (world (snd (loop fuel s))))
    = texts (invoked (world s)) ++ queued_texts (callAfter (world s)).
Proof.
  induction fuel as [|n IH]; intros s; [repeat split|].
  simpl. unfold bind, inWorld. simpl.
  destruct (callAfter (world s)) eqn:Hq; [simpl; rewrite ?Hq; repeat split|].
  rewrite <- Hq.
  destruct (dispatch_texts s) as (D1 & D2 & D3).
  destruct (dispatch s) as [[u|e] s1]; simpl in *; [|auto].
  destruct (IH s1) as (I1 & I2 & I3).
  repeat split; congruence.
Qed.

Lemma poll_stdout (out err : ref) (s : State) :
  listening out err s ->
  listening out err (snd (poll s)) /\
  stdout_text out (snd (poll s)) = stdout_text out s.
Proof.
  intros ((p & Hp & [x Hx]) & Ho & He & Hne & [a Ha] & (b & Hb & Hqb) & [f Hf]).
  rewrite (poll_explicit s p out err x a b) by assumption.
  pose proof (lookup_lt_Some _ _ _ Ha) as La.
  pose proof (lookup_lt_Some _ _ _ Hb) as Lb.
  assert (Rb : PipeReader.read b = (""%string, b))
    by (unfold PipeReader.read; now rewrite Hqb).
  split.
  - unfold listening, polled. simpl. repeat split; try assumption.
    + exists p. split; [assumption|]. apply list_lookup_insert_is_Some. eauto.
    + do 2 apply list_lookup_insert_is_Some. eauto.
    + exists b. split; [|assumption].
      rewrite list_lookup_insert_eq by (now rewrite length_insert).
      now rewrite Rb.
    + eauto.
  - unfold stdout_text, held_at, polled. simpl.
    rewrite list_lookup_insert_ne by congruence.
    rewrite list_lookup_insert_eq by assumption. rewrite Ha, Hf.
    f_equal. unfold queued_texts. rewrite flat_map_app, join_app, append_assoc.
    f_equal.
    destruct a as [[t|] ova sta pha cla], b as [qb ovb stb phb clb].
    all: simpl in Hqb; subst qb.
    all: unfold data_ops, exit_ops, PipeReader.held; simpl.
    all: destruct (Popen.poll x).1; simpl.
    all: destruct (_errorCallback (job s)); reflexivity.
Qed.

Lemma MainLoop_stdout (out err : ref) (s : State) :
  listening out err s ->
  listening out err (snd (MainLoop s)) /\
  stdout_text out (snd (MainLoop s)) = stdout_text out s.
Proof.
  intros ((p & Hp & Hx) & Ho & He & Hne & Ha & Hb & Hf).
  pose proof (MainLoop_job s) as Hj.
  assert (Hl : processes (world (snd (MainLoop s))) = processes (world s) /\
               readers (world (snd (MainLoop s))) = readers (world s) /\
               texts (invoked (world (snd (MainLoop s))))
               ++ queued_texts (callAfter (world (snd (MainLoop s))))
               = texts (invoked (world s)) ++ queued_texts (callAfter (world s))).
  { unfold MainLoop, bind, inWorld. simpl. apply loop_texts. }
  destruct Hl as (L1 & L2 & L3).
  assert (Jp : _process (job (snd (MainLoop s))) = _process (job s))
    by (apply (f_equal _process) in Hj; exact Hj).
  assert (Jo : _stdoutReader (job (snd (MainLoop s))) = _stdoutReader (job s))
    by (apply (f_equal _stdoutReader) in Hj; exact Hj).
  assert (Je : _stderrReader (job (snd (MainLoop s))) = _stderrReader (job s))
    by (apply (f_equal _stderrReader) in Hj; exact Hj).
  assert (Ji : _inputCallback (job (snd (MainLoop s))) = _inputCallback (job s))
    by (apply (f_equal _inputCallback) in Hj; exact Hj).
  split.
  - unfold listening. rewrite Jp, Jo, Je, Ji, L1, L2.
    repeat split; try assumption. exists p. auto.
  - unfold stdout_text, held_at. rewrite L2.
    rewrite <- !append_assoc, <- !join_app, L3. reflexivity.
Qed.

Lemma worker_stdout (out err : ref) (e : PipeReader.WorkerEvent) (s : State) :
  listening out err s ->
  listening out err (snd (act (WorkerStep out e) s)) /\
  stdout_text out (snd (act (WorkerStep out e) s))
  = stdout_text out s +:+ arrival out (WorkerStep out e) s.
Proof.
  intros ((p & Hp & Hx) & Ho & He & Hne & [a Ha] & (b & Hb & Hqb) & Hf).
  simpl. unfold void, onWorld, bind, ret. simpl.
  split.
  - unfold listening. simpl. repeat split; try assumption.
    + exists p. auto.
    + rewrite list_lookup_alter_eq, Ha. simpl. eauto.
    + exists b. split; [|assumption]. now rewrite list_lookup_alter_ne.
  - unfold stdout_text, held_at. simpl.
    rewrite list_lookup_alter_eq, Ha. simpl.
    rewrite !append_assoc. do 2 f_equal.
    unfold workerStep.
    destruct (decide (out = out)) as [_|Hn]; [|congruence].
    destruct (PipeReader.run_step e a) as [a'|] eqn:Hs.
    + rewrite (run_step_held _ _ _ Hs). destruct e; [|reflexivity].
      now rewrite Hs.
    + destruct e; [rewrite Hs|]; now rewrite append_nil_r.
Qed.

Lemma stdout_step (out err : ref) (a : Action) (s : State) :
  on_stdout_path out a = true ->
  listening out err s ->
  listening out err (snd (act a s)) /\
  stdout_text out (snd (act a s)) = stdout_text out s +:+ arrival out a s.
Proof.
  intros Ha Hl. destruct a; try discriminate.
  - destruct (poll_stdout out err s Hl) as [L T].
    simpl. split; [exact L|]. now rewrite T, append_nil_r.
  - simpl. unfold Timer_IsRunning, onNotify, self, bind, ret. simpl.
    rewrite append_nil_r.
    destruct (_pollTimer (job s)); [apply poll_stdout, Hl | now split].
  - destruct (MainLoop_stdout out err s Hl) as [L T].
    simpl. rewrite snd_void. split; [exact L|]. now rewrite T, append_nil_r.
  - destruct Hl as ((q & Hq & Hx) & Ho & He & Hne & Hra & Hrb & Hf).
    simpl. unfold void, onWorld, bind, ret. simpl. split.
    + unfold listening. simpl. repeat split; try assumption.
      exists q. split; [assumption|].
      apply lookup_lt_is_Some. rewrite length_alter.
      now apply lookup_lt_is_Some.
    + unfold stdout_text, held_at. simpl. now rewrite append_nil_r.
  - simpl in Ha. apply bool_decide_eq_true_1 in Ha. subst r.
    now apply worker_stdout.
Qed.

(** X17. The stdout text is conserved on its way to the host.  For a
    started Job with an input callback, along any interleaving of lines
    read by the stdout worker, polls, timer ticks, event-loop runs and
    child exits: the texts given to callbacks, then those queued with
    [wx.CallAfter], then what the stdout reader holds, joined in this
    order, are what they were before followed by the lines that arrived,
    in arrival order.  [poll] and the event loop neither lose, repeat
    nor reorder stdout data. *)
Theorem X17_stdout_text_is_conserved (out err : ref) (h : list Action) (s : State) :
  forallb (on_stdout_path out) h = true ->
  listening out err s ->
  stdout_text out (acts h s) = stdout_text out s +:+ arrivals out h s.
Proof.
  revert s. induction h as [|a h IH]; intros s Hh Hl.
  - simpl. now rewrite append_nil_r.
  - simpl in Hh. apply andb_prop in Hh as [Ha Hh].
    destruct (stdout_step out err a s Ha Hl) as [L T].
    simpl. rewrite (IH _ Hh L), T. apply append_assoc.
Qed.

Lemma X17_stdout_text_is_conserved_witness :
  invoked (world (acts [WorkerStep 0%nat (PipeReader.Readline PipeReader.line1);
                        WorkerStep 0%nat (PipeReader.Readline PipeReader.line2);
                        Poll; RunLoop;
                        WorkerStep 0%nat (PipeReader.Readline "x"); Poll]
                       (acts [Start None (Some 4242)] demo)))
  = [(1%nat, [VStr PipeReader.line1])] /\
  stdout_text 0%nat
    (acts [WorkerStep 0%nat (PipeReader.Readline PipeReader.line1);
           WorkerStep 0%nat (PipeReader.Readline PipeReader.line2);
           Poll; RunLoop;
           WorkerStep 0%nat (PipeReader.Readline "x"); Poll]
          (acts [Start None (Some 4242)] demo))
  = stdout_text 0%nat (acts [Start None (Some 4242)] demo)
    +:+ arrivals 0%nat
          [WorkerStep 0%nat (PipeReader.Readline PipeReader.line1);
           WorkerStep 0%nat (PipeReader.Readline PipeReader.line2);
           Poll; RunLoop;
           WorkerStep 0%nat (PipeReader.Readline "x"); Poll]
          (acts [Start None (Some 4242)] demo).
Proof.
  split; [vm_compute; reflexivity|].
  apply (X17_stdout_text_is_conserved 0%nat 1%nat).
  - reflexivity.
  - unfold listening. repeat split.
    + exists 0%nat. split; [vm_compute; reflexivity|].
      eexists. vm_compute. reflexivity.
    + discriminate.
    + eexists. vm_compute. reflexivity.
    + eexists. split; [vm_compute; reflexivity|]. reflexivity.
    + eexists. vm_compute. reflexivity.
Defined.

(** **** The timer and the stored interval *)

Lemma dispatch_timer_cases (s : State) :
  (_pollTimer (job (snd (dispatch s))) = None \/
   _pollTimer (job (snd (dispatch s))) = _pollTimer (job s)) /\
  _pollMillis (job (snd (dispatch s))) = _pollMillis (job s).
Proof.
  split; [|pose proof (dispatch_job s) as H;
           apply (f_equal _pollMillis) in H; exact H].
  destruct s as [j w]. destruct j as [cmd pid fl proc pm tm env icb ecb tcb ro re].
  unfold dispatch. expose. simpl.
  repeat (branch; simpl; auto).
Qed.

Lemma loop_timer_cases (fuel : nat) :
  forall s,
    (_pollTimer (job (snd (loop fuel s))) = None \/
     _pollTimer (job (snd (loop fuel s))) = _pollTimer (job s)) /\
    _pollMillis (job (snd (loop fuel s))) = _pollMillis (job s).
Proof.
  induction fuel as [|n IH]; intros s; [auto|].
  simpl. unfold bind, inWorld. simpl.
  destruct (callAfter (world s)); [auto|].
  destruct (dispatch_timer_cases s) as [D1 D2].
  destruct (dispatch s) as [[u|e] s1]; simpl in *; [|auto].
  destruct (IH s1) as [I1 I2]. split; [|congruence].
  destruct I1 as [I1|I1]; [now left|].
  destruct D1 as [D1|D1]; [left|right]; congruence.
Qed.

Lemma act_keeps_timer_in_sync (a : Action) (s : State) :
  timer_in_sync (job s) -> timer_in_sync (job (snd (act a s))).
Proof.
  unfold timer_in_sync. intros Hs. destruct a; simpl.
  - destruct spawn as [newpid|]; [|exact Hs].
    rewrite start_spawned. unfold started. simpl.
    destruct (_pollMillis (job s)) as [pm|] eqn:Hpm; simpl; intros ms Hms.
    + rewrite Hpm. exact Hms.
    + rewrite Hpm. apply Hs in Hms. congruence.
  - destruct s as [j w]. expose. simpl in *.
    repeat (branch; simpl; try exact Hs; try (intros; discriminate)).
  - now rewrite poll_job.
  - destruct s as [j w]. expose. simpl in *.
    repeat (branch; simpl; try exact Hs).
  - destruct s as [j w]. expose. simpl in *.
    repeat (branch; simpl; try exact Hs).
  - destruct s as [j w]. destruct j as [cmd pid fl proc pm tm env icb ecb tcb ro re].
    expose. simpl in *. destruct tm, val; simpl; intros ms Hms; congruence.
  - exact Hs.
  - exact Hs.
  - exact Hs.
  - unfold Timer_IsRunning, onNotify, self, bind, ret. simpl.
    destruct (_pollTimer (job s)) eqn:Ht; simpl; [rewrite poll_job|];
      intros ms Hms; apply Hs; congruence.
  - rewrite snd_void. unfold MainLoop, bind, inWorld. simpl.
    destruct (loop_timer_cases (turns (callAfter (world s))) s) as [[L1|L1] L2];
      intros ms Hms; rewrite L2; [congruence | apply Hs; congruence].
  - exact Hs.
  - exact Hs.
Qed.

(** X18. Whenever the timer is armed it runs at the stored polling
    interval: from the construction of a Job on, along any history, an
    armed [_pollTimer] has the interval kept in [_pollMillis] (so a
    Job without an interval never has a running timer). *)
Theorem X18_armed_timer_runs_at_pollMillis (a0 : Args) (w : World) (h : list Action) :
  timer_in_sync (job (acts h (create a0 w))).
Proof.
  assert (H0 : timer_in_sync (job (create a0 w))).
  { unfold timer_in_sync, create, new, __init__. expose. simpl.
    destruct (a_pollMillis a0); simpl; intros; discriminate. }
  revert H0. generalize (create a0 w).
  induction h as [|a h IH]; intros s Hs; [exact Hs|].
  simpl. apply IH, act_keeps_timer_in_sync, Hs.
Qed.

(** **** Readers the Job no longer points to *)

Lemma terminate_frame (signal flags : Z) (s : State) :
  _stdoutReader (job (snd (terminate signal flags s))) = _stdoutReader (job s) /\
  _stderrReader (job (snd (terminate signal flags s))) = _stderrReader (job s) /\
  (forall r, _stdoutReader (job s) <> Some r -> _stderrReader (job s) <> Some r ->
             readers (world (snd (terminate signal flags s))) !! r
             = readers (world s) !! r).
Proof.
  destruct s as [j w]. expose. simpl.
  repeat split.
  - repeat (branch; simpl; try congruence).
  - repeat (branch; simpl; try congruence).
  - intros r Ho He.
    repeat (branch; simpl; try reflexivity);
      simplify_eq; rewrite ?list_lookup_insert_ne by congruence; reflexivity.
Qed.

Lemma run_step_keeps_staged (e : PipeReader.WorkerEvent) (x : PipeReader.t) (t : string) :
  PipeReader._queue x = Some t ->
  PipeReader._queue (workerStep e x) = Some t.
Proof.
  destruct x as [q ov st ph cl]. simpl. intros ->.
  unfold workerStep, PipeReader.run_step. simpl.
  destruct ph, e as [l|]; simpl; try reflexivity.
  - destruct (decide (l = ""%string)); reflexivity.
  - destruct st; reflexivity.
Qed.

Lemma act_keeps_orphan (r : ref) (text : string) (a : Action) (s : State) :
  is_start a = false ->
  orphan_with r text s -> orphan_with r text (snd (act a s)).
Proof.
  intros Ha (Ho & He & x & Hx & Hq). destruct a; try discriminate; simpl.
  - destruct (terminate_frame signal flags s) as (T1 & T2 & T3).
    unfold orphan_with. rewrite T1, T2, (T3 r Ho He). eauto.
  - destruct (poll_frame s) as (P1 & _ & P3).
    unfold orphan_with. rewrite P1, (P3 r Ho He). eauto.
  - destruct s as [j w]. unfold void, command_set, self, bind, ret, raise, assign.
    simpl. destruct (isRunning j); simpl; unfold orphan_with; simpl; eauto.
  - destruct s as [j w]. unfold void, flags_set, self, bind, ret, raise, assign.
    simpl. destruct (isRunning j); simpl; unfold orphan_with; simpl; eauto.
  - destruct s as [j w]. destruct j as [cmd pid fl proc pm tm env icb ecb tcb ro re].
    expose. simpl in *. destruct tm, val; simpl; unfold orphan_with; simpl; eauto.
  - unfold orphan_with; simpl; eauto.
  - unfold orphan_with; simpl; eauto.
  - unfold orphan_with; simpl; eauto.
  - unfold Timer_IsRunning, onNotify, self, bind, ret. simpl.
    destruct (_pollTimer (job s)); simpl.
    + destruct (poll_frame s) as (P1 & _ & P3).
      unfold orphan_with. rewrite P1, (P3 r Ho He). eauto.
    + unfold orphan_with; eauto.
  - rewrite snd_void.
    pose proof (MainLoop_job s) as Hj.
    assert (Hl : readers (world (snd (MainLoop s))) = readers (world s)).
    { unfold MainLoop, bind, inWorld. simpl. apply loop_texts. }
    assert (Jo : _stdoutReader (job (snd (MainLoop s))) = _stdoutReader (job s))
      by (apply (f_equal _stdoutReader) in Hj; exact Hj).
    assert (Je : _stderrReader (job (snd (MainLoop s))) = _stderrReader (job s))
      by (apply (f_equal _stderrReader) in Hj; exact Hj).
    unfold orphan_with. rewrite Jo, Je, Hl. eauto.
  - unfold orphan_with; simpl; eauto.
  - unfold void, onWorld, bind, ret, orphan_with. simpl.
    repeat split; try assumption.
    destruct (decide (r0 = r)) as [->|Hne].
    + rewrite list_lookup_alter_eq, Hx. simpl.
      eexists. split; [reflexivity|]. now apply run_step_keeps_staged.
    + rewrite list_lookup_alter_ne by assumption. eauto.
Qed.

(** X19. What a forgotten reader has staged is never read.  If a reader
    of the store is none of the Job's two readers (as the readers of a
    first [start] are after a second one) and has a chunk staged, then
    along any history without a further [start] that chunk stays
    staged: no [poll] takes it, nothing replaces it. *)
Theorem X19_orphaned_reader_is_never_drained
    (r : ref) (text : string) (h : list Action) (s : State) :
  no_start h = true ->
  orphan_with r text s ->
  orphan_with r text (acts h s).
Proof.
  revert s. induction h as [|a h IH]; intros s Hh Ho; [exact Ho|].
  simpl in Hh. apply andb_prop in Hh as [Ha Hh].
  simpl. apply IH; [exact Hh|].
  apply act_keeps_orphan; [|exact Ho]. now destruct (is_start a).
Qed.

Lemma X19_orphaned_reader_is_never_drained_witness :
  orphan_with 0%nat PipeReader.line1
    (acts [Poll; RunLoop; WorkerStep 0%nat (PipeReader.Readline PipeReader.line2);
           Poll; RunLoop; Terminate 15 0; RunLoop]
          (snd (act (Start None (Some 4243)) busy))).
Proof.
  apply (X19_orphaned_reader_is_never_drained 0%nat PipeReader.line1
           [Poll; RunLoop; WorkerStep 0%nat (PipeReader.Readline PipeReader.line2);
            Poll; RunLoop; Terminate 15 0; RunLoop]
           (snd (act (Start None (Some 4243)) busy))).
  - reflexivity.
  - unfold orphan_with. split; [vm_compute; discriminate|].
    split; [vm_compute; discriminate|].
    eexists. split; [vm_compute; reflexivity|]. reflexivity.
Defined.

(** **** After [terminate] *)







End JobFacts.
